(** * AMA Northstowe: the chat endpoint

    A shallow embedding of [src/pages/api/chat.ts] and of the three further
    revisions of that endpoint carried in [src/pages/index.tsx] (after the
    page component): the fixed-window rate limiter, the keyword relevance
    filter, the query enhancer and the request handler; then the model
    probe of [src/pages/api/test-perplexity.ts] and the [sendMessage] of the
    page component of [src/pages/index.tsx], which posts to the endpoint.

    Conventions.
    - JS numbers that hold counts and millisecond timestamps are integers
      well inside the exactly representable range; they are [Z].
    - The process-wide [rateLimitMap] ([Map<string, {count, resetTime}>]) is
      a [gmap string RateEntry] threaded through every call; [userLimit.count++]
      mutates the object stored in the map, which is an insert of the updated
      record under the same key.
    - [Date.now()] is an input of the function that reads it.
    - A JS string is a sequence of UTF-16 code units.  The embedding covers
      the strings whose code units are below 256 (ASCII and the Latin-1
      supplement), one [ascii] per code unit. *)

From Stdlib Require Import ZArith Ascii DecimalString.
From stdpp Require Import gmap strings list fin_maps.

(** ** The request gate *)

Module RateLimit.
Local Open Scope Z_scope.

Record RateEntry := { count : Z; resetTime : Z }.

Abbreviation RateMap := (gmap string RateEntry).

Definition RATE_LIMIT : Z := 5.
Definition RATE_WINDOW : Z := 5 * 60 * 1000.

(** The entry [{ count: 1, resetTime: now + RATE_WINDOW }] both [set] calls store. *)
Definition freshEntry (now : Z) : RateEntry :=
  {| count := 1; resetTime := now + RATE_WINDOW |}.

(** [isRateLimited(key)], with the clock reading [now] and the map made
    explicit.  The result is the returned boolean and the map afterwards. *)
Definition isRateLimited (now : Z) (key : string) (rateLimitMap : RateMap)
  : bool * RateMap :=
  match rateLimitMap !! key with
  | None =>
      (false, <[key := freshEntry now]> rateLimitMap)
  | Some userLimit =>
      if bool_decide (now > resetTime userLimit) then
        (false, <[key := freshEntry now]> rateLimitMap)
      else if bool_decide (count userLimit >= RATE_LIMIT) then
        (true, rateLimitMap)
      else
        (false, <[key := {| count := count userLimit + 1;
                            resetTime := resetTime userLimit |}]> rateLimitMap)
  end.

(** A sequence of calls, each with its clock reading and key, run in order
    against one map: the list of returned booleans and the final map. *)
Fixpoint runCalls (calls : list (Z * string)) (m : RateMap) : list bool * RateMap :=
  match calls with
  | [] => ([], m)
  | (now, key) :: rest =>
      let '(b, m1) := isRateLimited now key m in
      let '(bs, m2) := runCalls rest m1 in
      (b :: bs, m2)
  end.

(** How many of the calls carry the key [k]. *)
Definition callsFor (k : string) (calls : list (Z * string)) : nat :=
  length (filter (λ c, c.2 = k) calls).

(** A call at [now] opens a new window for [k]: there is no entry, or the
    entry's window has elapsed. *)
Definition opensWindow (m : RateMap) (k : string) (now : Z) : Prop :=
  match m !! k with
  | None => True
  | Some e => now > resetTime e
  end.

(** The counting invariant of the map. *)
Definition countsBounded (m : RateMap) : Prop :=
  ∀ k e, m !! k = Some e → 1 ≤ count e ≤ RATE_LIMIT.

(** Maps reachable from the empty map of a fresh process. *)
Inductive reachable : RateMap → Prop :=
| reachable_empty : reachable ∅
| reachable_call now key m :
    reachable m → reachable (isRateLimited now key m).2.

End RateLimit.

(** ** The JS string operations the endpoint uses *)

Module Js.

(** The code unit of a character. *)
Definition code (c : ascii) : N := N_of_ascii c.

(** [String.prototype.toLowerCase] on one code unit below 256: the ASCII
    capitals and the Latin-1 capitals U+00C0..U+00DE (U+00D7, the
    multiplication sign, has no case) move up by 32. *)
Definition lowerChar (c : ascii) : ascii :=
  let n := code c in
  if ((65 <=? n) && (n <=? 90) ||
      (192 <=? n) && (n <=? 222) && negb (n =? 215))%N
  then ascii_of_N (n + 32) else c.

Fixpoint toLowerCase (s : string) : string :=
  match s with
  | EmptyString => EmptyString
  | String c s' => String (lowerChar c) (toLowerCase s')
  end.

(** [s.startsWith(p)], the test [includes] makes at each position. *)
Fixpoint startsWith (s p : string) {struct p} : bool :=
  match p, s with
  | EmptyString, _ => true
  | String _ _, EmptyString => false
  | String b p', String a s' => bool_decide (a = b) && startsWith s' p'
  end.

(** [s.includes(k)]: [k] occurs in [s] at some position. *)
Fixpoint includes (s k : string) : bool :=
  startsWith s k ||
  match s with
  | EmptyString => false
  | String _ s' => includes s' k
  end.

(** White space and line terminators below 256, as [trim] strips them:
    TAB, LF, VT, FF, CR, SPACE and NO-BREAK SPACE. *)
Definition isWhiteSpace (c : ascii) : bool :=
  let n := code c in
  ((9 <=? n) && (n <=? 13) || (n =? 32) || (n =? 160))%N.

Fixpoint trimStart (s : string) : string :=
  match s with
  | EmptyString => EmptyString
  | String c s' => if isWhiteSpace c then trimStart s' else s
  end.

(** [trimEnd]: a character is dropped when it is white space and all that
    follows it has been dropped. *)
Fixpoint trimEnd (s : string) : string :=
  match s with
  | EmptyString => EmptyString
  | String c s' =>
      match trimEnd s' with
      | EmptyString => if isWhiteSpace c then EmptyString else String c EmptyString
      | t => String c t
      end
  end.

Definition trim (s : string) : string := trimEnd (trimStart s).

(** [Array.prototype.some]. *)
Definition some {A} (f : A → bool) (l : list A) : bool := existsb f l.

(** *** The regular expressions of the filter

    Every pattern of [localServicePatterns] has the shape
    [/head.*(alt1|alt2|alt3)/i]: the literal [head], then any run of
    characters other than line terminators, then one of the literal
    alternatives.  The flag [i] compares characters after [Canonicalize]. *)

Record Pattern := { head : string; alternatives : list string }.

(** [Canonicalize] without the [u] flag: the character's upper case when
    that is a single code unit, except that a character from 128 up never
    folds below 128.  Below 256 the letters a-z and U+00E0..U+00FE (U+00F7,
    the division sign, has no case) move down by 32; U+00B5, U+00DF and
    U+00FF keep their own class, which no other character below 256 shares. *)
Definition canonicalize (c : ascii) : ascii :=
  let n := code c in
  if ((97 <=? n) && (n <=? 122) ||
      (224 <=? n) && (n <=? 254) && negb (n =? 247))%N
  then ascii_of_N (n - 32) else c.

(** The literal [p] matches at the start of [s], ignoring case. *)
Fixpoint matchesLiteral (s p : string) {struct p} : bool :=
  match p, s with
  | EmptyString, _ => true
  | String _ _, EmptyString => false
  | String b p', String a s' =>
      bool_decide (canonicalize a = canonicalize b) && matchesLiteral s' p'
  end.

(** A line terminator, which [.] does not match (LF and CR below 256). *)
Definition isLineTerminator (c : ascii) : bool :=
  let n := code c in ((n =? 10) || (n =? 13))%N.

(** [.*(alt1|...)] matches at the start of [s]: some alternative starts
    here, or the next character is not a line terminator and the rest
    matches from the following position. *)
Fixpoint matchesTail (alts : list string) (s : string) : bool :=
  some (matchesLiteral s) alts ||
  match s with
  | EmptyString => false
  | String c s' => negb (isLineTerminator c) && matchesTail alts s'
  end.

(** The string left after the first [n] characters. *)
Fixpoint dropChars (n : nat) (s : string) : string :=
  match n, s with
  | O, _ => s
  | S n', String _ s' => dropChars n' s'
  | S _, EmptyString => EmptyString
  end.

(** The whole pattern matches at the start of [s]. *)
Definition matchesHere (p : Pattern) (s : string) : bool :=
  matchesLiteral s (head p) &&
  matchesTail (alternatives p) (dropChars (String.length (head p)) s).

(** [pattern.test(s)]: the pattern matches at some position of [s]. *)
Fixpoint test (p : Pattern) (s : string) : bool :=
  matchesHere p s ||
  match s with
  | EmptyString => false
  | String _ s' => test p s'
  end.

End Js.

(** ** [src/pages/api/chat.ts]: filter and enhancer *)

Module ChatTs.
Import Js.

Definition northstoweKeywords : list string :=
  [ "northstowe"; "north stowe"; "cambridge"; "cambridgeshire";
    "town council"; "community"; "local"; "neighbourhood";
    "gp"; "doctor"; "surgery"; "medical"; "health";
    "school"; "education"; "primary school"; "secondary school";
    "transport"; "bus"; "train"; "cycling"; "walking";
    "shops"; "shopping"; "supermarket"; "tesco"; "pharmacy";
    "library"; "community centre"; "church"; "facilities";
    "housing"; "development"; "planning"; "construction";
    "park"; "green space"; "recreation"; "sport";
    "police"; "fire service"; "emergency services" ].

Definition isNorthstoweRelated (query : string) : bool :=
  let lowerQuery := toLowerCase query in
  if includes lowerQuery "northstowe" || includes lowerQuery "north stowe" then true
  else some (λ keyword, includes lowerQuery (toLowerCase keyword)) northstoweKeywords.

Definition enhanceQueryForNorthstowe (query : string) : string :=
  query +:+ " in Northstowe, Cambridgeshire, UK. Northstowe is a new town development in South Cambridgeshire.".

(** *** The request handler *)

(** What the parsed JSON body can hold in its [message] field;
    [JsUndefined] is a body without the field.  A JSON number is truthy
    unless it is zero (a fraction behaves as a non-zero integer does), an
    array or object is always truthy. *)
Inductive JsValue :=
| JsUndefined
| JsNull
| JsBoolean (b : bool)
| JsNumber (n : Z)
| JsString (s : string)
| JsObject.

(** [!!v]. *)
Definition truthy (v : JsValue) : bool :=
  match v with
  | JsUndefined | JsNull => false
  | JsBoolean b => b
  | JsNumber n => negb (n =? 0)%Z
  | JsString s => negb (bool_decide (s = ""))
  | JsObject => true
  end.

(** [typeof v === 'string']. *)
Definition isString (v : JsValue) : bool :=
  match v with JsString _ => true | _ => false end.

(** The string a value is, once [typeof v === 'string'] is known. *)
Definition stringOf (v : JsValue) : string :=
  match v with JsString s => s | _ => "" end.

Record Request := {
  method : string;
  xForwardedFor : option string;   (* req.headers['x-forwarded-for'] *)
  remoteAddress : option string;   (* req.connection.remoteAddress *)
  message : JsValue                (* req.body.message *)
}.

(** The body of a response: [{error, rateLimited?}] or
    [{response, notRelated?}]; an absent optional field is [None]. *)
Inductive Json :=
| ErrorJson (error : string) (rateLimited : option bool)
| ResponseJson (response : string) (notRelated : option bool).

Record Response := { status : Z; json : Json }.

Inductive Role := system | user | assistant.

Record ChatMessage := { role : Role; content : string }.

(** The one upstream call: [axios.post(url, body, {headers})]. *)
Record AxiosCall := {
  url : string;
  model : string;
  messages : list ChatMessage;
  max_tokens : Z;
  temperature : Z * Z;             (* numerator and denominator *)
  top_p : Z * Z;
  return_citations : bool;
  search_domain_filter : list string;
  search_recency_filter : string;
  authorization : string;
  contentType : string
}.

(** The upstream reply: [choices[i].message.content], each level possibly
    missing at run time. *)
Record ChoiceMessage := { messageContent : option string }.
Record Choice := { choiceMessage : option ChoiceMessage }.
Record PerplexityResponse := { choices : option (list Choice) }.

(** A value caught by [catch]: whether [axios.isAxiosError] holds of it and
    its [error.response?.status]. *)
Record Thrown := { isAxiosError : bool; responseStatus : option Z }.

(** How the awaited promise settles. *)
Inductive AxiosResult :=
| Fulfilled (data : PerplexityResponse)
| Rejected (error : Thrown).

(** A computation that may await upstream calls before it returns. *)
Inductive Prog (A : Type) : Type :=
| Ret (a : A)
| Await (call : AxiosCall) (k : AxiosResult → Prog A).
Arguments Ret {A} a.
Arguments Await {A} call k.

(** Running a computation against an upstream that answers the [n]-th call
    [c] with [upstream n c]: the value returned and the calls made, in order. *)
Fixpoint run {A} (upstream : nat → AxiosCall → AxiosResult) (n : nat) (p : Prog A)
  : A * list AxiosCall :=
  match p with
  | Ret a => (a, [])
  | Await c k =>
      let '(a, cs) := run upstream (S n) (k (upstream n c)) in (a, c :: cs)
  end.

Definition nonEmpty (o : option string) : option string :=
  match o with
  | Some s => if bool_decide (s = "") then None else Some s
  | None => None
  end.

(** [a || b || 'unknown'] on possibly missing strings: the first that is
    present and not empty. *)
Definition getRateLimitKey (req : Request) : string :=
  match nonEmpty (xForwardedFor req) with
  | Some k => k
  | None =>
      match nonEmpty (remoteAddress req) with
      | Some k => k
      | None => "unknown"
      end
  end.

Definition nl : string := String "010"%char EmptyString.

Definition systemPrompt : string :=
  String.concat nl
    [ "You are a helpful assistant specifically for residents of Northstowe, a new town in Cambridgeshire, UK. ";
      "        ";
      "        Provide accurate, helpful information about:";
      "        - Local services (GP surgeries, schools, shops, transport)";
      "        - Community events and town council meetings  ";
      "        - Development updates and planning";
      "        - Local facilities and amenities";
      "        - Transportation links to Cambridge and surrounding areas";
      "        ";
      "        Always focus on Northstowe-specific information. If you don't have current information, suggest checking the official Northstowe website or town council for the most up-to-date details.";
      "        ";
      "        Keep responses concise, friendly, and helpful for local residents." ].

Definition notRelatedText : string :=
  "I'm sorry, I can only answer questions related to Northstowe. Please ask me about local services, facilities, developments, or community information in Northstowe.".

Definition respond (code : Z) (body : Json) : Response :=
  {| status := code; json := body |}.

(** The [catch] block. *)
Definition onError (error : Thrown) : Response :=
  if isAxiosError error && bool_decide (responseStatus error = Some 401%Z) then
    respond 500 (ErrorJson "API authentication failed - check your Perplexity API key" None)
  else if isAxiosError error && bool_decide (responseStatus error = Some 429%Z) then
    respond 429 (ErrorJson "API rate limit exceeded. Please try again later." None)
  else if isAxiosError error && bool_decide (responseStatus error = Some 403%Z) then
    respond 500 (ErrorJson "API access forbidden - check your Perplexity API key permissions" None)
  else
    respond 500 (ErrorJson "Failed to get response. Please try again." None).

(** [response.data.choices[0]?.message?.content]; reading index 0 of a
    missing [choices] throws a [TypeError], which is the outer [None]. *)
Definition firstContent (data : PerplexityResponse) : option (option string) :=
  match choices data with
  | None => None
  | Some cs =>
      Some (match cs with
            | [] => None
            | c :: _ =>
                match choiceMessage c with
                | None => None
                | Some m => messageContent m
                end
            end)
  end.

(** The [try] block after the call has settled. *)
Definition onSettled (r : AxiosResult) : Prog Response :=
  match r with
  | Rejected error => Ret (onError error)
  | Fulfilled data =>
      match firstContent data with
      | None => Ret (onError {| isAxiosError := false; responseStatus := None |})
      | Some aiResponse =>
          match nonEmpty aiResponse with
          | None => Ret (respond 500 (ErrorJson "No response from AI service" None))
          | Some text => Ret (respond 200 (ResponseJson text None))
          end
      end
  end.

Definition upstreamCall (apiKey enhancedMessage : string) : AxiosCall :=
  {| url := "https://api.perplexity.ai/chat/completions";
     model := "sonar-small-online";
     messages := [ {| role := system; content := systemPrompt |};
                   {| role := user; content := enhancedMessage |} ];
     max_tokens := 800;
     temperature := (2, 10)%Z;
     top_p := (9, 10)%Z;
     return_citations := false;
     search_domain_filter := ["gov.uk"; "cambridge.gov.uk"; "southcambs.gov.uk"];
     search_recency_filter := "month";
     authorization := "Bearer " +:+ apiKey;
     contentType := "application/json" |}.

(** [handler(req, res)]: the clock reading of the gate, the environment's
    [PERPLEXITY_API_KEY] and the rate-limit map are explicit; the result is
    the computation that produces the response, and the map afterwards. *)
Definition handler (now : Z) (apiKey : option string) (req : Request)
    (rateLimitMap : RateLimit.RateMap) : Prog Response * RateLimit.RateMap :=
  if negb (bool_decide (method req = "POST")) then
    (Ret (respond 405 (ErrorJson "Method not allowed" None)), rateLimitMap)
  else
    let rateLimitKey := getRateLimitKey req in
    let '(limited, rateLimitMap') :=
      RateLimit.isRateLimited now rateLimitKey rateLimitMap in
    if limited then
      (Ret (respond 429
              (ErrorJson "Too many requests. Please wait a moment before asking another question."
                         (Some true))),
       rateLimitMap')
    else
      (if negb (truthy (message req)) || negb (isString (message req)) then
         Ret (respond 400 (ErrorJson "Message is required" None))
       else
         let text := stringOf (message req) in
         if negb (isNorthstoweRelated text) then
           Ret (respond 200 (ResponseJson notRelatedText (Some true)))
         else
           match nonEmpty apiKey with
           | None => Ret (respond 500 (ErrorJson "API key not configured" None))
           | Some key =>
               Await (upstreamCall key (enhanceQueryForNorthstowe text)) onSettled
           end,
       rateLimitMap').

(** The request with its [message] field replaced. *)
Definition withMessage (req : Request) (v : JsValue) : Request :=
  {| method := method req;
     xForwardedFor := xForwardedFor req;
     remoteAddress := remoteAddress req;
     message := v |}.

(** Requests served one after the other by one process, each with the clock
    reading of its gate: the computations of the responses and the map
    at the end. *)
Fixpoint handleAll (apiKey : option string) (reqs : list (Z * Request))
    (rateLimitMap : RateLimit.RateMap)
  : list (Prog Response) * RateLimit.RateMap :=
  match reqs with
  | [] => ([], rateLimitMap)
  | (now, req) :: rest =>
      let '(p, m1) := handler now apiKey req rateLimitMap in
      let '(ps, m2) := handleAll apiKey rest m1 in
      (p :: ps, m2)
  end.

End ChatTs.

(** ** [src/pages/index.tsx]: filter and enhancers of the later revisions

    The file carries three revisions of the endpoint.  Their
    [isNorthstoweRelated] is the same text (lines 334, 619 and 895); their
    [enhanceQueryForNorthstowe] differ (lines 402, 687 and 963). *)

Module IndexTsx.
Import Js.

Definition northstoweKeywords : list string :=
  [ "northstowe"; "north stowe"; "cambridge"; "cambridgeshire";
    "town council"; "community"; "local"; "neighbourhood";
    "gp"; "doctor"; "surgery"; "medical"; "health";
    "school"; "education"; "primary school"; "secondary school";
    "transport"; "bus"; "train"; "cycling"; "walking";
    "shops"; "shopping"; "supermarket"; "tesco"; "pharmacy";
    "library"; "community centre"; "church"; "facilities";
    "housing"; "development"; "planning"; "construction";
    "park"; "green space"; "recreation"; "sport";
    "police"; "fire service"; "emergency services";
    "unity centre"; "unity center"; "cabin"; "community hub";
    "cycle path"; "guided busway"; "phase"; "development";
    "bin collection"; "bins"; "rubbish"; "recycling"; "waste";
    "refuse"; "collection day"; "black bin"; "blue bin"; "green bin";
    "heron road"; "road"; "street"; "avenue"; "close"; "way" ].

Definition followUpKeywords : list string :=
  [ "when"; "where"; "how"; "what"; "who"; "why"; "which";
    "opening"; "available"; "cost"; "price"; "time"; "date";
    "contact"; "phone"; "email"; "address"; "location";
    "more information"; "details"; "update"; "status";
    "it"; "this"; "that"; "they"; "there"; "here";
    "also"; "additionally"; "furthermore"; "moreover";
    "nearest"; "closest"; "best"; "recommended" ].

Definition localServicePatterns : list Pattern :=
  [ {| head := "when";  alternatives := ["open"; "close"; "available"] |};
    {| head := "where"; alternatives := ["is"; "are"; "can"] |};
    {| head := "how";   alternatives := ["get"; "reach"; "contact"] |};
    {| head := "what";  alternatives := ["time"; "day"; "hour"] |};
    {| head := "is";    alternatives := ["open"; "available"; "ready"] |};
    {| head := "are";   alternatives := ["there"; "any"; "open"] |} ].

Definition isNorthstoweRelated (query : string) : bool :=
  let lowerQuery := toLowerCase query in
  if includes lowerQuery "northstowe" || includes lowerQuery "north stowe" then true
  else if some (λ keyword, includes lowerQuery (toLowerCase keyword)) northstoweKeywords
  then true
  else if bool_decide (String.length (trim query) ≤ 50) &&
          some (λ keyword, includes lowerQuery (toLowerCase keyword)) followUpKeywords
  then true
  else if some (λ pattern, test pattern query) localServicePatterns then true
  else false.

(** The double quote character, for the quoted phrases of the search string. *)
Definition dq : string := String "034"%char EmptyString.

(** The text of the meeting branch's template before [${currentDate}]. *)
Definition meetingSearch : string :=
  "site:northstowetowncouncil.gov.uk Northstowe Town Council meeting agenda September 2024 2025 "
  +:+ dq +:+ "23 September" +:+ dq +:+ " " +:+ dq +:+ "23rd September" +:+ dq
  +:+ " " +:+ dq +:+ "September 23" +:+ dq
  +:+ " next upcoming meeting after ".

(** Line 402.  [currentDate] is [new Date().toLocaleDateString('en-GB')],
    the day as dd/mm/yyyy. *)
Definition enhanceQueryForNorthstowe_402 (currentDate query : string) : string :=
  let lowerQuery := toLowerCase query in
  if includes lowerQuery "meeting" || includes lowerQuery "council" then
    meetingSearch +:+ currentDate
  else if includes lowerQuery "bin" || includes lowerQuery "collection" ||
          includes lowerQuery "waste" || includes lowerQuery "rubbish" then
    query +:+ " Northstowe bin collection schedule next Friday"
  else if includes lowerQuery "bus" || includes lowerQuery "transport" ||
          includes lowerQuery "travel" then
    query +:+ " Northstowe bus transport timetable route"
  else if includes lowerQuery "open" || includes lowerQuery "centre" ||
          includes lowerQuery "center" || includes lowerQuery "facility" then
    query +:+ " Northstowe opening times construction timeline"
  else
    query +:+ " in Northstowe, Cambridgeshire, UK. Find specific current information, dates, times, schedules, contact details.".

(** Line 687. *)
Definition enhanceQueryForNorthstowe_687 (query : string) : string :=
  let lowerQuery := toLowerCase query in
  if includes lowerQuery "meeting" || includes lowerQuery "council" then
    query +:+ " Northstowe Town Council meeting schedule upcoming dates"
  else if includes lowerQuery "bin" || includes lowerQuery "collection" ||
          includes lowerQuery "waste" || includes lowerQuery "rubbish" then
    query +:+ " Northstowe bin collection schedule next Friday"
  else if includes lowerQuery "bus" || includes lowerQuery "transport" ||
          includes lowerQuery "travel" then
    query +:+ " Northstowe bus transport timetable route"
  else if includes lowerQuery "open" || includes lowerQuery "centre" ||
          includes lowerQuery "center" || includes lowerQuery "facility" then
    query +:+ " Northstowe opening times construction timeline"
  else
    query +:+ " in Northstowe, Cambridgeshire, UK. Find specific current information, dates, times, schedules, contact details.".

(** Line 963. *)
Definition enhanceQueryForNorthstowe_963 (query : string) : string :=
  query +:+ " in Northstowe, Cambridgeshire, UK. Northstowe is a new town development in South Cambridgeshire.".

End IndexTsx.

(** ** The words of the specification

    What it is for a query to contain a keyword in any letter case, said
    without the code's [toLowerCase] and [includes]. *)

Module Wording.
Import Js.

(** The capital of an ASCII small letter; any other character is itself. *)
Definition capital (c : ascii) : ascii :=
  if ((97 <=? code c) && (code c <=? 122))%N then ascii_of_N (code c - 32) else c.

(** [s] spells the word [w], each letter in either case. *)
Fixpoint anyCaseOf (w s : string) : Prop :=
  match w, s with
  | EmptyString, EmptyString => True
  | String a w', String b s' => (b = a ∨ b = capital a) ∧ anyCaseOf w' s'
  | _, _ => False
  end.

(** The query contains the word, in any letter case. *)
Definition mentions (w q : string) : Prop :=
  ∃ pre mid post, q = pre +:+ mid +:+ post ∧ anyCaseOf w mid.

Definition mentionsAny (ws : list string) (q : string) : Prop :=
  ∃ w, w ∈ ws ∧ mentions w q.

(** [k] is a substring of [s]. *)
Definition occursIn (k s : string) : Prop :=
  ∃ pre post, s = pre +:+ k +:+ post.

(** An ASCII character other than a capital letter, as all the characters
    of the keyword lists and patterns are. *)
Definition plainChar (c : ascii) : bool :=
  ((code c <? 65) || (90 <? code c) && (code c <? 128))%N.

Fixpoint plain (w : string) : bool :=
  match w with
  | EmptyString => true
  | String c w' => plainChar c && plain w'
  end.


(** What is left of the fifth and sixth fallback patterns for a query that
    contains no follow-up keyword: [/is.*(open|ready)/i] and
    [/are.*(any|open)/i]. *)
Definition isOpenOrReady : Pattern :=
  {| head := "is"; alternatives := ["open"; "ready"] |}.
Definition areAnyOrOpen : Pattern :=
  {| head := "are"; alternatives := ["any"; "open"] |}.

(** Queries and requests used as instances. *)
Definition recipeQuery : string :=
  "Tell me a good recipe for chocolate brownies and vanilla custard please".
Definition pizzaQuery : string :=
  "Is my preferred pizza restaurant in London open on Sundays and Mondays?".
Definition startQuery : string := "  When does it start?  ".
Definition tescoQuery : string := "Where is the nearest Tesco?".

Definition post (v : ChatTs.JsValue) : ChatTs.Request :=
  {| ChatTs.method := "POST";
     ChatTs.xForwardedFor := Some "203.0.113.7";
     ChatTs.remoteAddress := Some "10.0.0.1";
     ChatTs.message := v |}.

(** An upstream that rejects every call with the HTTP status [code]. *)
Definition rejecting (code : Z) : nat → ChatTs.AxiosCall → ChatTs.AxiosResult :=
  λ _ _, ChatTs.Rejected {| ChatTs.isAxiosError := true;
                            ChatTs.responseStatus := Some code |}.

End Wording.


(** ** Traces of the gate and of the handler *)

Module GateTrace.
Import RateLimit.
Local Open Scope Z_scope.

(** The calls that carry the key [k], in order. *)
Definition callsOf (k : string) (calls : list (Z * string)) : list (Z * string) :=
  filter (λ c, c.2 = k) calls.

(** Of the results of a run, those of the calls that carry the key [k]. *)
Fixpoint resultsOf (k : string) (calls : list (Z * string)) (results : list bool)
  : list bool :=
  match calls, results with
  | c :: calls', b :: results' =>
      if decide (c.2 = k) then b :: resultsOf k calls' results'
      else resultsOf k calls' results'
  | _, _ => []
  end.

(** The keys of a sequence of calls. *)
Definition keysOf (calls : list (Z * string)) : gset string :=
  list_to_set (calls.*2).

(** One call that opens a window at [t1], four more in the window's last
    millisecond and five in the millisecond after it. *)
Definition boundaryBurst (k : string) (t1 : Z) : list (Z * string) :=
  (t1, k) :: replicate 4 (t1 + RATE_WINDOW, k) ++
             replicate 5 (t1 + RATE_WINDOW + 1, k).

(** The calls of the gate that a sequence of requests to [chat.ts] makes:
    one per POST request, with the request's key. *)
Definition gateCalls (reqs : list (Z * ChatTs.Request)) : list (Z * string) :=
  omap (λ r : Z * ChatTs.Request,
          if bool_decide (ChatTs.method r.2 = "POST")
          then Some (r.1, ChatTs.getRateLimitKey r.2) else None) reqs.

(** The status codes and the error texts that occur in [chat.ts]. *)
Definition statusCodes : list Z := [200; 400; 405; 429; 500].

Definition errorTexts : list string :=
  [ "Method not allowed";
    "Too many requests. Please wait a moment before asking another question.";
    "Message is required";
    "API key not configured";
    "No response from AI service";
    "API authentication failed - check your Perplexity API key";
    "API rate limit exceeded. Please try again later.";
    "API access forbidden - check your Perplexity API key permissions";
    "Failed to get response. Please try again." ].

(** The response the handler gives to a request the gate blocks. *)
Definition tooManyRequests : ChatTs.Response :=
  ChatTs.respond 429
    (ChatTs.ErrorJson
       "Too many requests. Please wait a moment before asking another question."
       (Some true)).

(** A POST request as it reaches the handler behind a proxy that passes the
    client's [X-Forwarded-For] header on. *)
Record Forwarded := {
  arrival : Z;                     (* the clock reading of the gate *)
  forwardedFor : string;           (* the header the client sent *)
  socketAddress : option string;
  body : ChatTs.JsValue
}.

Definition forwardedRequest (f : Forwarded) : Z * ChatTs.Request :=
  (arrival f,
   {| ChatTs.method := "POST";
      ChatTs.xForwardedFor := Some (forwardedFor f);
      ChatTs.remoteAddress := socketAddress f;
      ChatTs.message := body f |}).

(** A POST request that carries neither a forwarded-for header nor a socket
    address. *)
Definition unidentified (v : ChatTs.JsValue) : ChatTs.Request :=
  {| ChatTs.method := "POST";
     ChatTs.xForwardedFor := None;
     ChatTs.remoteAddress := None;
     ChatTs.message := v |}.

(** When the handler makes its upstream call, and with what. *)
Definition reachesUpstream (now : Z) (apiKey : option string) (req : ChatTs.Request)
    (m : RateMap) : option ChatTs.AxiosCall :=
  if bool_decide (ChatTs.method req = "POST") &&
     negb (isRateLimited now (ChatTs.getRateLimitKey req) m).1 &&
     ChatTs.truthy (ChatTs.message req) && ChatTs.isString (ChatTs.message req) &&
     ChatTs.isNorthstoweRelated (ChatTs.stringOf (ChatTs.message req))
  then
    match ChatTs.nonEmpty apiKey with
    | Some key =>
        Some (ChatTs.upstreamCall key (ChatTs.enhanceQueryForNorthstowe (ChatTs.stringOf (ChatTs.message req))))
    | None => None
    end
  else None.

End GateTrace.

(** ** [src/pages/api/test-perplexity.ts]: the model probe *)

Module TestPerplexity.

(** A value as the [catch] block meets it; an object or array is given by
    its JSON text. *)
Inductive Any :=
| Undefined
| Null
| Bool (b : bool)
| Number (n : Z)
| Str (s : string)
| Obj (json : string).

(** [!!v]. *)
Definition truthy (v : Any) : bool :=
  match v with
  | Undefined | Null => false
  | Bool b => b
  | Number n => negb (n =? 0)%Z
  | Str s => negb (bool_decide (s = ""))
  | Obj _ => true
  end.

(** One probing call: [axios.post(url, {model, messages, max_tokens},
    {headers, timeout})]. *)
Record ProbeCall := {
  url : string;
  model : string;
  messages : list ChatTs.ChatMessage;
  max_tokens : Z;
  authorization : string;
  contentType : string;
  timeout : Z
}.

(** A value caught by [catch (error: any)]: its
    [error.response?.data?.error] and its [error.message]. *)
Record Caught := { responseDataError : Any; errorMessage : Any }.

(** How the awaited promise settles. *)
Inductive Settled :=
| Fulfilled (data : ChatTs.PerplexityResponse)
| Rejected (error : Caught).

(** An entry of [results]. *)
Inductive ProbeResult :=
| Success (model : string) (response : string)
| Failed (model : string) (error : Any).

(** The body of the response. *)
Inductive Json :=
| ErrorJson (error : string)
| ReportJson (apiKeyConfigured : bool) (apiKeyLength : nat) (results : list ProbeResult).

Record Response := { status : Z; json : Json }.

(** A computation that may await probing calls before it returns. *)
Inductive Prog (A : Type) : Type :=
| Ret (a : A)
| Await (call : ProbeCall) (k : Settled → Prog A).
Arguments Ret {A} a.
Arguments Await {A} call k.

(** Running a computation against an upstream that answers the [n]-th call
    [c] with [upstream n c]: the value returned and the calls made, in order. *)
Fixpoint run {A} (upstream : nat → ProbeCall → Settled) (n : nat) (p : Prog A)
  : A * list ProbeCall :=
  match p with
  | Ret a => (a, [])
  | Await c k =>
      let '(a, cs) := run upstream (S n) (k (upstream n c)) in (a, c :: cs)
  end.

Definition modelsToTest : list string :=
  [ "sonar";
    "sonar-small-online";
    "sonar-medium-online";
    "sonar-small-chat";
    "llama-3.1-sonar-small-128k-online";
    "pplx-7b-online";
    "pplx-70b-online" ].

Definition probeCall (apiKey model : string) : ProbeCall :=
  {| url := "https://api.perplexity.ai/chat/completions";
     model := model;
     messages := [ {| ChatTs.role := ChatTs.user;
                      ChatTs.content := "Hello, this is a test message." |} ];
     max_tokens := 50;
     authorization := "Bearer " +:+ apiKey;
     contentType := "application/json";
     timeout := 10000 |}.

(** The message of the [TypeError] that reading index 0 of a missing
    [choices] throws (the wording of V8, the engine of Node.js). *)
Definition typeErrorMessage : string :=
  "Cannot read properties of undefined (reading '0')".

(** [error.response?.data?.error || error.message]. *)
Definition reported (error : Caught) : Any :=
  if truthy (responseDataError error) then responseDataError error
  else errorMessage error.

(** [response.data.choices[0]?.message?.content || 'No content'], for a
    reply that has [choices]. *)
Definition contentOrDefault (cs : list ChatTs.Choice) : string :=
  match cs with
  | c :: _ =>
      match ChatTs.choiceMessage c with
      | Some m =>
          match ChatTs.nonEmpty (ChatTs.messageContent m) with
          | Some text => text
          | None => "No content"
          end
      | None => "No content"
      end
  | [] => "No content"
  end.

(** The [for] loop over the models still to test, with the results pushed
    so far: a fulfilled call pushes a success and breaks; a rejected call,
    or a fulfilled one whose reply has no [choices] (the [TypeError] is
    thrown inside the [try]), pushes a failure and the loop goes on. *)
Fixpoint probe (apiKey : string) (models : list string) (results : list ProbeResult)
  : Prog (list ProbeResult) :=
  match models with
  | [] => Ret results
  | model :: rest =>
      Await (probeCall apiKey model)
        (λ settled,
           match settled with
           | Fulfilled data =>
               match ChatTs.choices data with
               | Some cs => Ret (results ++ [Success model (contentOrDefault cs)])
               | None =>
                   probe apiKey rest
                     (results ++ [Failed model (Str typeErrorMessage)])
               end
           | Rejected error =>
               probe apiKey rest (results ++ [Failed model (reported error)])
           end)
  end.

(** Sequencing of computations. *)
Fixpoint bind {A B} (p : Prog A) (f : A → Prog B) : Prog B :=
  match p with
  | Ret a => f a
  | Await c k => Await c (λ r, bind (k r) f)
  end.

(** [handler(req, res)] of the probe, with the request's method and the
    environment's [PERPLEXITY_API_KEY]. *)
Definition handler (method : string) (apiKey : option string) : Prog Response :=
  if negb (bool_decide (method = "GET")) then
    Ret {| status := 405; json := ErrorJson "Method not allowed" |}
  else
    match ChatTs.nonEmpty apiKey with
    | None => Ret {| status := 500; json := ErrorJson "API key not configured" |}
    | Some key =>
        bind (probe key modelsToTest [])
          (λ results,
             Ret {| status := 200;
                    json := ReportJson true (String.length key) results |})
    end.

(** A reply the loop takes for a success: fulfilled, with [choices]. *)
Definition succeeds (s : Settled) : bool :=
  match s with
  | Fulfilled data =>
      match ChatTs.choices data with Some _ => true | None => false end
  | Rejected _ => false
  end.

(** What the loop pushes for a reply. *)
Definition resultOf (model : string) (s : Settled) : ProbeResult :=
  match s with
  | Fulfilled data =>
      match ChatTs.choices data with
      | Some cs => Success model (contentOrDefault cs)
      | None => Failed model (Str typeErrorMessage)
      end
  | Rejected error => Failed model (reported error)
  end.

Definition isFailed (r : ProbeResult) : bool :=
  match r with Failed _ _ => true | Success _ _ => false end.

(** The models the loop tries against an upstream, each with the reply it
    gets: those up to and including the first that succeeds. *)
Fixpoint attempts (upstream : nat → ProbeCall → Settled) (n : nat)
    (apiKey : string) (models : list string) : list (string * Settled) :=
  match models with
  | [] => []
  | model :: rest =>
      let settled := upstream n (probeCall apiKey model) in
      (model, settled) ::
      (if succeeds settled then [] else attempts upstream (S n) apiKey rest)
  end.

(** An upstream that rejects the first [k] calls with a network error and
    answers every later call with the one text. *)
Definition failingFirst (k : nat) (text : string) : nat → ProbeCall → Settled :=
  λ n _,
    if bool_decide (n < k) then
      Rejected {| responseDataError := Undefined;
                  errorMessage := Str "Network Error" |}
    else
      Fulfilled {| ChatTs.choices := Some
        [ {| ChatTs.choiceMessage :=
               Some {| ChatTs.messageContent := Some text |} |} ] |}.

End TestPerplexity.

(** ** [src/pages/index.tsx]: the page's [sendMessage]

    The component state is a record; [sendMessage] is split at its one
    [await] into what runs before the request is posted and what runs once
    it has settled.  Each reading of the clock is an input. *)

Module Page.
Local Open Scope Z_scope.

Record Message := {
  id : string;
  text : string;
  isUser : bool;
  timestamp : Z;                  (* [new Date()], in milliseconds *)
  isError : option bool           (* [None]: the field is absent *)
}.

Record RateLimitInfo := {
  isLimited : bool;
  resetTime : option Z
}.

Record State := {
  messages : list Message;
  input : string;
  isLoading : bool;
  rateLimitInfo : RateLimitInfo
}.

(** How [axios.post('/api/chat', ...)] settles: fulfilled with the body
    [{response, notRelated?}] of a 2xx response, or rejected, with
    [error.response] when the server answered. *)
Inductive PostResult :=
| Resolved (response : string) (notRelated : option bool)
| Rejected (response : option ChatTs.Response).

(** The readings of the clock, in the order the code can make them. *)
Record Clock := {
  tCheck : Z;                      (* [now] of the rate-limit check *)
  tSent : Z;                       (* [Date.now()] of the first message's id *)
  tSentStamp : Z;                  (* its [new Date()] *)
  tReset : Z;                      (* [Date.now()] of the new [resetTime] *)
  tReply : Z;                      (* [Date.now()] of the second message's id *)
  tReplyStamp : Z                  (* its [new Date()] *)
}.

(** [n.toString()] for an integer. *)
Definition numberToString (n : Z) : string :=
  NilZero.string_of_int (Z.to_int n).

(** [Math.ceil(d / 1000)] for an integer [d]. *)
Definition ceilSeconds (d : Z) : Z := - ((- d) / 1000).

Definition sampleQuestions : list string :=
  [ "When is the GP surgery opening?";
    "What are the upcoming town council meetings?";
    "Where is the nearest Tesco?";
    "When will the secondary school be ready?";
    "What bus services are available to Cambridge?";
    "Are there any community events this month?" ].

(** [messageText || input.trim()]. *)
Definition textToSend (messageText : option string) (st : State) : string :=
  match ChatTs.nonEmpty messageText with
  | Some t => t
  | None => Js.trim (input st)
  end.

(** [setMessages(prev => [...prev, m])]. *)
Definition addMessage (m : Message) (st : State) : State :=
  {| messages := messages st ++ [m];
     input := input st;
     isLoading := isLoading st;
     rateLimitInfo := rateLimitInfo st |}.

Definition setInput (s : string) (st : State) : State :=
  {| messages := messages st; input := s;
     isLoading := isLoading st; rateLimitInfo := rateLimitInfo st |}.

Definition setIsLoading (b : bool) (st : State) : State :=
  {| messages := messages st; input := input st;
     isLoading := b; rateLimitInfo := rateLimitInfo st |}.

Definition setRateLimitInfo (r : RateLimitInfo) (st : State) : State :=
  {| messages := messages st; input := input st;
     isLoading := isLoading st; rateLimitInfo := r |}.

(** The [resetTime] the page still has to wait for: [rateLimitInfo.isLimited]
    and [rateLimitInfo.resetTime && now < rateLimitInfo.resetTime]. *)
Definition waitingFor (now : Z) (r : RateLimitInfo) : option Z :=
  if isLimited r then
    match resetTime r with
    | Some t => if negb (t =? 0) && (now <? t) then Some t else None
    | None => None
    end
  else None.

Definition waitMessage (clock : Clock) (t : Z) : Message :=
  {| id := numberToString (tSent clock);
     text := "Please wait " +:+ numberToString (ceilSeconds (t - tCheck clock))
             +:+ " seconds before sending another message.";
     isUser := false;
     timestamp := tSentStamp clock;
     isError := Some true |}.

Definition userMessage (clock : Clock) (t : string) : Message :=
  {| id := numberToString (tSent clock);
     text := t;
     isUser := true;
     timestamp := tSentStamp clock;
     isError := None |}.

(** [sendMessage] up to the [await]: the state after the synchronous part
    and, when a request is posted, the [message] of its body. *)
Definition sendMessage_begin (clock : Clock) (messageText : option string)
    (st : State) : State * option string :=
  let textToSend := textToSend messageText st in
  if bool_decide (textToSend = "") || isLoading st then (st, None)
  else
    match waitingFor (tCheck clock) (rateLimitInfo st) with
    | Some t => (addMessage (waitMessage clock t) st, None)
    | None =>
        let st1 :=
          if isLimited (rateLimitInfo st)
          then setRateLimitInfo {| isLimited := false; resetTime := None |} st
          else st in
        (setIsLoading true
           (setInput "" (addMessage (userMessage clock textToSend) st1)),
         Some textToSend)
    end.

(** [x || false] for an optional boolean. *)
Definition orFalse (b : option bool) : bool :=
  match b with Some true => true | _ => false end.

(** [error.response.data.error] and [error.response.data.rateLimited]. *)
Definition dataError (r : ChatTs.Response) : option string :=
  match ChatTs.json r with
  | ChatTs.ErrorJson e _ => Some e
  | ChatTs.ResponseJson _ _ => None
  end.

Definition dataRateLimited (r : ChatTs.Response) : option bool :=
  match ChatTs.json r with
  | ChatTs.ErrorJson _ rl => rl
  | ChatTs.ResponseJson _ _ => None
  end.

Definition replyMessage (clock : Clock) (t : string) (err : bool) : Message :=
  {| id := numberToString (tReply clock + 1);
     text := t;
     isUser := false;
     timestamp := tReplyStamp clock;
     isError := Some err |}.

(** [sendMessage] after the [await]: the [try] continuation or the [catch]
    block, then [finally]. *)
Definition sendMessage_settle (clock : Clock) (result : PostResult) (st : State)
  : State :=
  match result with
  | Resolved response notRelated =>
      setIsLoading false
        (addMessage (replyMessage clock response (orFalse notRelated)) st)
  | Rejected response =>
      let is429 :=
        match response with
        | Some r => bool_decide (ChatTs.status r = 429)
        | None => false
        end in
      let errorText :=
        match response with
        | Some r =>
            if bool_decide (ChatTs.status r = 429) then
              match ChatTs.nonEmpty (dataError r) with
              | Some e => e
              | None => "Too many requests. Please wait before trying again."
              end
            else "Sorry, something went wrong. Please try again."
        | None => "Sorry, something went wrong. Please try again."
        end in
      let st1 :=
        match response with
        | Some r =>
            if is429 && orFalse (dataRateLimited r) then
              setRateLimitInfo
                {| isLimited := true;
                   resetTime := Some (tReset clock + 5 * 60 * 1000) |} st
            else st
        | None => st
        end in
      setIsLoading false (addMessage (replyMessage clock errorText true) st1)
  end.

(** The whole of [sendMessage] against a server that settles the request
    for a message with [server message]: the state at the end and the
    messages posted. *)
Definition sendMessage (server : string → PostResult) (clock : Clock)
    (messageText : option string) (st : State) : State * list string :=
  match sendMessage_begin clock messageText st with
  | (st1, Some message) => (sendMessage_settle clock (server message) st1, [message])
  | (st1, None) => (st1, [])
  end.

(** [handleSubmit] and [handleSampleQuestion]. *)
Definition handleSubmit server clock (st : State) :=
  sendMessage server clock None st.
Definition handleSampleQuestion server clock (question : string) (st : State) :=
  sendMessage server clock (Some question) st.

(** What the rendering makes of the state: the [disabled] attributes of the
    text input and of the send button, and the conditions under which the
    sample questions and the rate-limit banner are rendered. *)
Definition inputDisabled (st : State) : bool :=
  isLoading st || isLimited (rateLimitInfo st).

Definition sendDisabled (st : State) : bool :=
  isLoading st || bool_decide (Js.trim (input st) = "") ||
  isLimited (rateLimitInfo st).

Definition samplesShown (st : State) : bool :=
  bool_decide (length (messages st) = 1%nat) && negb (isLoading st).

Definition bannerShown (st : State) : bool :=
  isLimited (rateLimitInfo st) &&
  match resetTime (rateLimitInfo st) with
  | Some t => negb (t =? 0)
  | None => false
  end.

(** How axios settles on a response of the server: fulfilled for a status
    from 200 to 299, rejected otherwise.  A 2xx response with an [error]
    body has no [response] text to show; the handler sends none. *)
Definition delivered (r : ChatTs.Response) : option PostResult :=
  if (200 <=? ChatTs.status r) && (ChatTs.status r <? 300) then
    match ChatTs.json r with
    | ChatTs.ResponseJson t notRelated => Some (Resolved t notRelated)
    | ChatTs.ErrorJson _ _ => None
    end
  else Some (Rejected (Some r)).

(** The request [axios.post('/api/chat', {message})] as the handler of
    [chat.ts] receives it, given what the network adds. *)
Definition chatRequest (xForwardedFor remoteAddress : option string)
    (message : string) : ChatTs.Request :=
  {| ChatTs.method := "POST";
     ChatTs.xForwardedFor := xForwardedFor;
     ChatTs.remoteAddress := remoteAddress;
     ChatTs.message := ChatTs.JsString message |}.

(** The response of [chat.ts] to a message of the page. *)
Definition chatResponse (now : Z) (apiKey : option string)
    (xForwardedFor remoteAddress : option string)
    (upstream : nat → ChatTs.AxiosCall → ChatTs.AxiosResult)
    (m : RateLimit.RateMap) (message : string) : ChatTs.Response :=
  (ChatTs.run upstream 0
     (ChatTs.handler now apiKey
        (chatRequest xForwardedFor remoteAddress message) m).1).1.

(** Whether the gate of [chat.ts] blocks a message of the page. *)
Definition gateBlocks (now : Z) (xForwardedFor remoteAddress : option string)
    (m : RateLimit.RateMap) (message : string) : bool :=
  (RateLimit.isRateLimited now
     (ChatTs.getRateLimitKey (chatRequest xForwardedFor remoteAddress message)) m).1.

(** One question asked through the page and answered by [chat.ts]: the
    page state at the end, when axios has something to settle with. *)
Definition ask (now : Z) (apiKey : option string)
    (xForwardedFor remoteAddress : option string)
    (upstream : nat → ChatTs.AxiosCall → ChatTs.AxiosResult)
    (m : RateLimit.RateMap) (clock : Clock) (messageText : option string)
    (st : State) : option State :=
  match sendMessage_begin clock messageText st with
  | (st1, Some message) =>
      match delivered (chatResponse now apiKey xForwardedFor remoteAddress
                         upstream m message) with
      | Some result => Some (sendMessage_settle clock result st1)
      | None => None
      end
  | (st1, None) => Some st1
  end.

(** A page state and a clock used as instances. *)
Definition idle (typed : string) : State :=
  {| messages := [];
     input := typed;
     isLoading := false;
     rateLimitInfo := {| isLimited := false; resetTime := None |} |}.

Definition limitedUntil (t : Z) (typed : string) : State :=
  {| messages := [];
     input := typed;
     isLoading := false;
     rateLimitInfo := {| isLimited := true; resetTime := Some t |} |}.

Definition clockAt (t : Z) : Clock :=
  {| tCheck := t; tSent := t; tSentStamp := t;
     tReset := t + 40; tReply := t + 40; tReplyStamp := t + 40 |}.

(** A map in which the clients without header and address have used up
    their window, which ends at [t]. *)
Definition usedUp (t : Z) : RateLimit.RateMap :=
  {[ "unknown" := {| RateLimit.count := 5; RateLimit.resetTime := t |} ]}.

(** An upstream that answers every call with the one text. *)
Definition answering (text : string)
  : nat → ChatTs.AxiosCall → ChatTs.AxiosResult :=
  λ _ _, ChatTs.Fulfilled {| ChatTs.choices := Some
    [ {| ChatTs.choiceMessage := Some {| ChatTs.messageContent := Some text |} |} ] |}.

End Page.
(** ** Queries that differ in the case of ASCII letters only *)

Module LetterCase.

(** [q'] is [q] with the case of some of its ASCII letters changed: the
    same length, and at each position the same character or the two cases
    of one ASCII letter. *)
Fixpoint sameUpToCase (q q' : string) : Prop :=
  match q, q' with
  | EmptyString, EmptyString => True
  | String a s, String b s' =>
      (a = b ∨ a = Wording.capital b ∨ b = Wording.capital a) ∧
      sameUpToCase s s'
  | _, _ => False
  end.

End LetterCase.

(** * Properties *)

(** ** The request gate *)

Module RateLimitProps.
Import RateLimit.
Local Open Scope Z_scope.

Lemma isRateLimited_absent now key m :
  m !! key = None →
  isRateLimited now key m = (false, <[key := freshEntry now]> m).
Proof. intros H. unfold isRateLimited. by rewrite H. Qed.

Lemma isRateLimited_expired now key m e :
  m !! key = Some e → now > resetTime e →
  isRateLimited now key m = (false, <[key := freshEntry now]> m).
Proof.
  intros H Hlate. unfold isRateLimited. rewrite H.
  by rewrite bool_decide_eq_true_2.
Qed.

Lemma isRateLimited_blocked now key m e :
  m !! key = Some e → now ≤ resetTime e → count e >= RATE_LIMIT →
  isRateLimited now key m = (true, m).
Proof.
  intros H Hin Hfull. unfold isRateLimited. rewrite H.
  rewrite bool_decide_eq_false_2 by lia.
  by rewrite bool_decide_eq_true_2.
Qed.

Lemma isRateLimited_counted now key m e :
  m !! key = Some e → now ≤ resetTime e → count e < RATE_LIMIT →
  isRateLimited now key m =
    (false, <[key := {| count := count e + 1; resetTime := resetTime e |}]> m).
Proof.
  intros H Hin Hroom. unfold isRateLimited. rewrite H.
  rewrite bool_decide_eq_false_2 by lia.
  by rewrite bool_decide_eq_false_2 by lia.
Qed.

(** A call never touches the entry of another key. *)
Lemma isRateLimited_other now key m k :
  k ≠ key → (isRateLimited now key m).2 !! k = m !! k.
Proof.
  intros Hne. unfold isRateLimited.
  destruct (m !! key) as [e|]; repeat case_bool_decide; simpl;
    by rewrite ?lookup_insert_ne.
Qed.

Lemma callsFor_cons c k cs :
  callsFor k (c :: cs) = (if decide (c.2 = k) then S (callsFor k cs) else callsFor k cs).
Proof. unfold callsFor. rewrite filter_cons. by destruct (decide _). Qed.

Lemma runCalls_cons now key cs m :
  runCalls ((now, key) :: cs) m =
    ((isRateLimited now key m).1 :: (runCalls cs (isRateLimited now key m).2).1,
     (runCalls cs (isRateLimited now key m).2).2).
Proof.
  simpl. destruct (isRateLimited now key m) as [b m1]. simpl.
  by destruct (runCalls cs m1).
Qed.

(** Inside a window whose entry holds [c], the call that [n] calls with the
    same key precede is blocked exactly when [c + n] has reached the limit;
    calls with other keys in between change nothing. *)
Lemma runCalls_in_window k cs : ∀ m c r,
  m !! k = Some {| count := c; resetTime := r |} →
  (∀ now, (now, k) ∈ cs → now ≤ r) →
  ∀ i now, cs !! i = Some (now, k) →
    (runCalls cs m).1 !! i =
      Some (bool_decide (RATE_LIMIT ≤ c + Z.of_nat (callsFor k (take i cs)))).
Proof.
  induction cs as [|[t key] cs IH]; intros m c r Hm Hin i now Hi; [done|].
  rewrite runCalls_cons.
  destruct i as [|i]; simpl in Hi.
  - injection Hi as -> ->. simpl. f_equal.
    unfold isRateLimited. rewrite Hm. simpl.
    assert (now ≤ r) by (apply Hin; left).
    rewrite bool_decide_eq_false_2 by lia.
    unfold callsFor; simpl.
    repeat case_bool_decide; simpl; try done; lia.
  - simpl. rewrite callsFor_cons. simpl.
    assert (Hrest : ∀ now0, (now0, k) ∈ cs → now0 ≤ r)
      by (intros ? ?; apply Hin; by right).
    destruct (decide (key = k)) as [->|Hne].
    + assert (t ≤ r) by (apply Hin; left).
      destruct (decide (c < RATE_LIMIT)) as [Hroom|Hfull].
      * rewrite (isRateLimited_counted t k m _ Hm) by (simpl; lia). simpl.
        erewrite IH; [|apply lookup_insert_eq|done|done].
        f_equal. apply bool_decide_ext. lia.
      * rewrite (isRateLimited_blocked t k m _ Hm) by (simpl; lia). simpl.
        erewrite IH; [|done..].
        f_equal. rewrite !bool_decide_eq_true_2; [done|lia|lia].
    + erewrite IH; [done| |done|done].
      by rewrite isRateLimited_other.
Qed.

(** The entry the window ends with: the calls counted, up to the limit,
    under the reset time the window started with. *)
Lemma runCalls_window_entry k cs : ∀ m c r,
  m !! k = Some {| count := c; resetTime := r |} →
  c ≤ RATE_LIMIT →
  (∀ now, (now, k) ∈ cs → now ≤ r) →
  (runCalls cs m).2 !! k =
    Some {| count := Z.min RATE_LIMIT (c + Z.of_nat (callsFor k cs));
            resetTime := r |}.
Proof.
  induction cs as [|[t key] cs IH]; intros m c r Hm Hc Hin.
  - simpl. rewrite Hm. unfold callsFor. simpl. do 2 f_equal. lia.
  - rewrite runCalls_cons, callsFor_cons. simpl.
    assert (Hrest : ∀ now0, (now0, k) ∈ cs → now0 ≤ r)
      by (intros ? ?; apply Hin; by right).
    destruct (decide (key = k)) as [->|Hne].
    + assert (t ≤ r) by (apply Hin; left).
      destruct (decide (c < RATE_LIMIT)) as [Hroom|Hfull].
      * rewrite (isRateLimited_counted t k m _ Hm) by (simpl; lia). simpl.
        erewrite IH; [|apply lookup_insert_eq|lia|done].
        do 2 f_equal. lia.
      * rewrite (isRateLimited_blocked t k m _ Hm) by (simpl; lia). simpl.
        erewrite IH; [|done..].
        do 2 f_equal. unfold RATE_LIMIT in *. lia.
    + erewrite IH; [done| |done|done].
      by rewrite isRateLimited_other.
Qed.

Lemma opensWindow_call m k t1 :
  opensWindow m k t1 →
  isRateLimited t1 k m = (false, <[k := freshEntry t1]> m).
Proof.
  unfold opensWindow. intros H.
  destruct (m !! k) as [e|] eqn:Hm.
  - by apply isRateLimited_expired with e.
  - by apply isRateLimited_absent.
Qed.

Lemma countsBounded_call now key m :
  countsBounded m → countsBounded (isRateLimited now key m).2.
Proof.
  intros Hinv k e'. unfold isRateLimited.
  destruct (m !! key) as [e|] eqn:Hm; repeat case_bool_decide; simpl;
    try (destruct (decide (k = key)) as [->|Hne];
         [rewrite lookup_insert_eq | rewrite lookup_insert_ne by done]);
    try (intros [= <-]; simpl; unfold RATE_LIMIT in *;
         try (specialize (Hinv _ _ Hm)); unfold RATE_LIMIT in *; lia);
    apply Hinv.
Qed.

(** Every map the process can hold satisfies the counting invariant. *)
Lemma reachable_countsBounded m : reachable m → countsBounded m.
Proof.
  induction 1 as [|now key m _ IH].
  - intros k e. by rewrite lookup_empty.
  - by apply countsBounded_call.
Qed.

(** What one call does to the entries that were there: an entry keeps its
    reset time, unless it is the caller's and its window has elapsed, in
    which case it is replaced by a fresh one. *)
Lemma isRateLimited_resetTime now key m k e :
  m !! k = Some e →
  ∃ e', (isRateLimited now key m).2 !! k = Some e' ∧
        ((resetTime e' = resetTime e ∧ ¬ (k = key ∧ now > resetTime e)) ∨
         (k = key ∧ now > resetTime e ∧ e' = freshEntry now)).
Proof.
  intros Hk. destruct (decide (k = key)) as [->|Hne].
  - unfold isRateLimited. rewrite Hk.
    repeat case_bool_decide; simpl; rewrite ?lookup_insert_eq;
      eexists; (split; [done|]); simpl; first [by right | left; split; [done|lia]].
  - exists e. rewrite isRateLimited_other by done.
    split; [done|]. left. split; [done|]. by intros [? _].
Qed.

(** C1. Starting from a call that opens a window for [k] (no entry, or an
    elapsed one), every later call with key [k] made while the clock has not
    passed the window's reset time is blocked exactly when at least five
    calls with that key precede it in the window: the first five are
    allowed, the sixth (and any further one) is blocked, whatever calls with
    other keys come in between; the entry keeps the reset time the window
    started with.  And for any map, a call made after the entry's reset time
    has passed is allowed and replaces the entry by one with count 1 and
    reset time [late + RATE_WINDOW]. *)
Theorem sixth_call_blocked_and_reset_after_window
    (k : string) (m : RateMap) (t1 : Z) (rest : list (Z * string))
    (m0 : RateMap) (e : RateEntry) (late : Z) :
  opensWindow m k t1 →
  (∀ now, (now, k) ∈ rest → now ≤ t1 + RATE_WINDOW) →
  m0 !! k = Some e →
  late > resetTime e →
  (∀ i now, ((t1, k) :: rest) !! i = Some (now, k) →
     (runCalls ((t1, k) :: rest) m).1 !! i =
       Some (bool_decide (5 ≤ callsFor k (take i ((t1, k) :: rest)))%nat)) ∧
  (runCalls ((t1, k) :: rest) m).2 !! k =
     Some {| count := Z.min RATE_LIMIT (Z.of_nat (callsFor k ((t1, k) :: rest)));
             resetTime := t1 + RATE_WINDOW |} ∧
  isRateLimited late k m0 =
    (false, <[k := {| count := 1; resetTime := late + RATE_WINDOW |}]> m0).
Proof.
  intros Hopen Hin Hm0 Hlate.
  rewrite runCalls_cons, (opensWindow_call _ _ _ Hopen). simpl.
  split; [|split].
  - intros [|i] now Hi; simpl in *.
    + reflexivity.
    + erewrite runCalls_in_window; [|apply lookup_insert_eq|done|done].
      f_equal. rewrite callsFor_cons. simpl. rewrite decide_True by done.
      apply bool_decide_ext. unfold RATE_LIMIT. lia.
  - erewrite runCalls_window_entry;
      [|apply lookup_insert_eq|unfold RATE_LIMIT; lia|done].
    rewrite callsFor_cons. simpl. rewrite decide_True by done.
    do 2 f_equal. lia.
  - by apply isRateLimited_expired with e.
Qed.

(** Six calls from one address inside five minutes, another address in
    between, and a seventh call after the window. *)
Lemma sixth_call_blocked_and_reset_after_window_witness :
  (runCalls [(1000, "10.0.0.1"); (1001, "10.0.0.1"); (1002, "10.0.0.2");
             (1003, "10.0.0.1"); (2000, "10.0.0.1"); (3000, "10.0.0.1");
             (301000, "10.0.0.1")] ∅).1
    = [false; false; false; false; false; false; true] ∧
  (runCalls [(1000, "10.0.0.1"); (1001, "10.0.0.1"); (1002, "10.0.0.2");
             (1003, "10.0.0.1"); (2000, "10.0.0.1"); (3000, "10.0.0.1");
             (301000, "10.0.0.1")] ∅).1 !! 6%nat = Some true ∧
  isRateLimited 301001 "10.0.0.1"
      {[ "10.0.0.1" := {| count := 5; resetTime := 301000 |} ]}
    = (false, <[ "10.0.0.1" := {| count := 1; resetTime := 601001 |} ]>
                {[ "10.0.0.1" := {| count := 5; resetTime := 301000 |} ]}).
Proof.
  split; [vm_compute; reflexivity|].
  pose proof (sixth_call_blocked_and_reset_after_window "10.0.0.1" ∅ 1000
    [(1001, "10.0.0.1"); (1002, "10.0.0.2"); (1003, "10.0.0.1");
     (2000, "10.0.0.1"); (3000, "10.0.0.1"); (301000, "10.0.0.1")]
    {[ "10.0.0.1" := {| count := 5; resetTime := 301000 |} ]}
    {| count := 5; resetTime := 301000 |} 301001) as H.
  destruct H as (Hcalls & _ & Hreset).
  - exact I.
  - intros now Hin. unfold RATE_WINDOW.
    repeat (apply elem_of_cons in Hin as [Hin|Hin]; [simplify_eq; lia|]).
    by apply elem_of_nil in Hin.
  - reflexivity.
  - simpl. lia.
  - split; [|exact Hreset].
    exact (Hcalls 6%nat 301000 eq_refl).
Defined.

(** C2. Every call preserves the counting invariant: if each entry of the
    map has a count between 1 and [RATE_LIMIT] = 5 before the call, so has
    each entry after it.  An entry's reset time is never moved while its
    window runs: it stays as it is unless the call is for that key and the
    clock is strictly past it ([now > resetTime]), and then the entry is
    replaced by a fresh one with count 1 and reset time [now + RATE_WINDOW]. *)
Theorem counts_bounded_and_window_fixed
    (now : Z) (key : string) (m : RateMap) :
  countsBounded m →
  countsBounded (isRateLimited now key m).2 ∧
  (∀ k e, m !! k = Some e →
     ∃ e', (isRateLimited now key m).2 !! k = Some e' ∧
       ((resetTime e' = resetTime e ∧ ¬ (k = key ∧ now > resetTime e)) ∨
        (k = key ∧ now > resetTime e ∧
         e' = {| count := 1; resetTime := now + RATE_WINDOW |}))).
Proof.
  intros Hinv. split.
  - by apply countsBounded_call.
  - intros k e Hk. by apply isRateLimited_resetTime.
Qed.

Lemma counts_bounded_and_window_fixed_witness :
  countsBounded (isRateLimited 2000 "10.0.0.1"
    {[ "10.0.0.1" := {| count := 4; resetTime := 301000 |} ]}).2.
Proof.
  apply (counts_bounded_and_window_fixed 2000 "10.0.0.1"
           {[ "10.0.0.1" := {| count := 4; resetTime := 301000 |} ]}).
  intros k e Hk. apply lookup_singleton_Some in Hk as [_ <-].
  simpl. unfold RATE_LIMIT. lia.
Defined.

(** C8. When the key's entry exists, the clock has not passed its reset
    time and its count has reached [RATE_LIMIT] = 5, the call returns
    blocked and the map afterwards is the map before: nothing is
    incremented, no reset time is touched. *)
Theorem blocked_call_leaves_map_unchanged
    (now : Z) (key : string) (m : RateMap) (e : RateEntry) :
  m !! key = Some e →
  now ≤ resetTime e →
  count e >= RATE_LIMIT →
  isRateLimited now key m = (true, m).
Proof. apply isRateLimited_blocked. Qed.

Lemma blocked_call_leaves_map_unchanged_witness :
  isRateLimited 301000 "10.0.0.1"
      {[ "10.0.0.1" := {| count := 5; resetTime := 301000 |} ]}
    = (true, {[ "10.0.0.1" := {| count := 5; resetTime := 301000 |} ]}).
Proof.
  apply (blocked_call_leaves_map_unchanged 301000 "10.0.0.1" _
           {| count := 5; resetTime := 301000 |}).
  - reflexivity.
  - simpl. lia.
  - simpl. unfold RATE_LIMIT. lia.
Defined.

End RateLimitProps.

(** ** Strings: the code's operations against the specification's words *)

Module JsProps.
Import Js Wording.

Lemma app_nil_l s : "" +:+ s = s.
Proof. reflexivity. Qed.

Lemma app_cons c s t : String c s +:+ t = String c (s +:+ t).
Proof. reflexivity. Qed.

Lemma app_nil_r s : s +:+ "" = s.
Proof. induction s as [|c s IH]; [done|]. by rewrite app_cons, IH. Qed.

Lemma app_assoc s t u : (s +:+ t) +:+ u = s +:+ t +:+ u.
Proof. induction s as [|c s IH]; [done|]. by rewrite !app_cons, IH. Qed.

Lemma app_length s t :
  String.length (s +:+ t) = String.length s + String.length t.
Proof. induction s as [|c s IH]; [done|]. rewrite app_cons. simpl. by rewrite IH. Qed.

(** *** [startsWith] and [includes] *)

Lemma startsWith_spec s p : startsWith s p = true ↔ ∃ post, s = p +:+ post.
Proof.
  revert s. induction p as [|b p IH]; intros s; simpl.
  - split; [intros _; by exists s|done].
  - destruct s as [|a s].
    + split; [done|]. intros [post H]. by rewrite app_cons in H.
    + rewrite andb_true_iff, bool_decide_eq_true, IH. split.
      * intros [-> [post ->]]. by exists post.
      * intros [post H]. rewrite app_cons in H. injection H as -> ->. eauto.
Qed.

Lemma includes_spec s k : includes s k = true ↔ occursIn k s.
Proof.
  unfold occursIn. induction s as [|a s IH]; simpl.
  - rewrite orb_false_r, startsWith_spec. split.
    + intros [post H]. by exists "", post.
    + intros ([|c pre] & post & H); [by exists post|by rewrite app_cons in H].
  - rewrite orb_true_iff, startsWith_spec, IH. split.
    + intros [[post H]|(pre & post & ->)].
      * by exists "", post.
      * by exists (String a pre), post.
    + intros ([|c pre] & post & H).
      * left. by exists post.
      * right. rewrite app_cons in H. injection H as -> ->. by exists pre, post.
Qed.


Lemma includes_app_l s k t : includes (s +:+ k +:+ t) k = true.
Proof. apply includes_spec. by exists s, t. Qed.

Lemma includes_prefix k t : includes (k +:+ t) k = true.
Proof. apply (includes_app_l "" k t). Qed.

(** *** Letter case *)

Lemma lowerChar_plain a :
  plainChar a = true → lowerChar a = a ∧ lowerChar (capital a) = a.
Proof. destruct a as [[] [] [] [] [] [] [] []]; vm_compute; intros; (done || by split). Qed.

Lemma lowerChar_inv b :
  plainChar (lowerChar b) = true → b = lowerChar b ∨ b = capital (lowerChar b).
Proof.
  destruct b as [[] [] [] [] [] [] [] []]; vm_compute; intros;
    first [discriminate | by left | by right].
Qed.

Lemma lowerChar_iff a b :
  plainChar a = true → lowerChar b = a ↔ b = a ∨ b = capital a.
Proof.
  intros Ha. split.
  - intros <-. by apply lowerChar_inv.
  - intros [->| ->]; by apply lowerChar_plain.
Qed.

Lemma toLowerCase_app s t :
  toLowerCase (s +:+ t) = toLowerCase s +:+ toLowerCase t.
Proof. induction s as [|c s IH]; [done|]. rewrite !app_cons. simpl. by rewrite app_cons, IH. Qed.

Lemma toLowerCase_length s : String.length (toLowerCase s) = String.length s.
Proof. induction s as [|c s IH]; simpl; [done|by rewrite IH]. Qed.

(** A split of the lowered string is the lowering of a split of the string. *)
Lemma toLowerCase_split s a b :
  toLowerCase s = a +:+ b →
  ∃ x y, s = x +:+ y ∧ toLowerCase x = a ∧ toLowerCase y = b.
Proof.
  revert s. induction a as [|c a IH]; intros s H.
  - by exists "", s.
  - destruct s as [|d s]; [done|]. rewrite app_cons in H. simpl in H.
    injection H as Hc H. destruct (IH _ H) as (x & y & -> & Hx & Hy).
    exists (String d x), y. simpl. by rewrite Hx, Hc.
Qed.

Lemma toLowerCase_anyCase w s :
  plain w = true → toLowerCase s = w ↔ anyCaseOf w s.
Proof.
  revert s. induction w as [|a w IH]; intros [|b s] Hw; simpl in *; try done.
  apply andb_true_iff in Hw as [Ha Hw].
  rewrite <- (IH s Hw), <- (lowerChar_iff a b Ha). split.
  - by intros [= -> ->].
  - by intros [-> ->].
Qed.

Lemma toLowerCase_plain w : plain w = true → toLowerCase w = w.
Proof.
  induction w as [|a w IH]; simpl; [done|].
  intros [Ha Hw]%andb_true_iff.
  by rewrite (proj1 (lowerChar_plain a Ha)), IH.
Qed.

(** The code's test for a keyword is the specification's "contains it,
    in any letter case". *)
Lemma includes_lower_mentions w q :
  plain w = true → includes (toLowerCase q) w = true ↔ mentions w q.
Proof.
  intros Hw. rewrite includes_spec. unfold occursIn, mentions. split.
  - intros (pre' & post' & H).
    apply toLowerCase_split in H as (pre & rest & -> & _ & H).
    apply toLowerCase_split in H as (mid & post & -> & Hmid & _).
    exists pre, mid, post. split; [done|]. by apply toLowerCase_anyCase.
  - intros (pre & mid & post & -> & Hmid).
    exists (toLowerCase pre), (toLowerCase post).
    rewrite !toLowerCase_app. do 2 f_equal. by apply toLowerCase_anyCase.
Qed.

Lemma some_true {A} (f : A → bool) l : some f l = true ↔ ∃ x, x ∈ l ∧ f x = true.
Proof.
  unfold some. rewrite existsb_exists.
  split; intros (x & Hx & Hf); exists x; by rewrite list_elem_of_In in *.
Qed.

Lemma some_false {A} (f : A → bool) l : some f l = false ↔ ∀ x, x ∈ l → f x = false.
Proof.
  split.
  - intros H x Hx. destruct (f x) eqn:Hf; [|done].
    assert (some f l = true) by (apply some_true; eauto). congruence.
  - intros H. destruct (some f l) eqn:Hs; [|done].
    apply some_true in Hs as (x & Hx & Hf). rewrite (H x Hx) in Hf. done.
Qed.

Lemma some_keywords ws q :
  forallb plain ws = true →
  some (λ keyword, includes (toLowerCase q) (toLowerCase keyword)) ws = true
  ↔ mentionsAny ws q.
Proof.
  intros Hws. rewrite forallb_forall in Hws.
  rewrite some_true. unfold mentionsAny.
  split; intros (w & Hin & H); exists w; (split; [done|]);
    assert (plain w = true) as Hw by (apply Hws; by apply list_elem_of_In).
  - rewrite (toLowerCase_plain w) in H by done.
    by apply (proj1 (includes_lower_mentions w q Hw)).
  - rewrite (toLowerCase_plain w) by done.
    by apply (proj2 (includes_lower_mentions w q Hw)).
Qed.

Lemma some_keywords_false ws q :
  forallb plain ws = true →
  some (λ keyword, includes (toLowerCase q) (toLowerCase keyword)) ws = false
  ↔ ¬ mentionsAny ws q.
Proof.
  intros Hws. rewrite <- (some_keywords ws q Hws).
  by destruct (some _ ws).
Qed.

(** *** The fallback patterns *)

Lemma canonicalize_plain b :
  plainChar b = true →
  (code (canonicalize b) <? 128)%N = true ∧ lowerChar (canonicalize b) = b.
Proof. destruct b as [[] [] [] [] [] [] [] []]; vm_compute; intros; (done || by split). Qed.

Lemma canonicalize_ascii a :
  (code (canonicalize a) <? 128)%N = true →
  lowerChar (canonicalize a) = lowerChar a.
Proof. destruct a as [[] [] [] [] [] [] [] []]; vm_compute; intros; done. Qed.

(** A character the pattern letter [b] matches under the flag [i] lowers
    to [b]. *)
Lemma canonicalize_lower a b :
  plainChar b = true → canonicalize a = canonicalize b → lowerChar a = b.
Proof.
  intros Hb Heq. destruct (canonicalize_plain b Hb) as [Hlt Hlow].
  rewrite <- Heq in Hlt, Hlow. by rewrite <- (canonicalize_ascii a Hlt).
Qed.

Lemma matchesLiteral_lower s p :
  plain p = true → matchesLiteral s p = true → startsWith (toLowerCase s) p = true.
Proof.
  revert s. induction p as [|b p IH]; intros [|a s] Hp; simpl in *; try done.
  apply andb_true_iff in Hp as [Hb Hp].
  rewrite !andb_true_iff, !bool_decide_eq_true.
  intros [Hc Hm]. split; [by apply canonicalize_lower|by apply IH].
Qed.

Lemma dropChars_suffix n s : ∃ pre, s = pre +:+ dropChars n s.
Proof.
  revert s. induction n as [|n IH]; intros s; [by exists ""|].
  destruct s as [|c s]; [by exists ""|]. simpl.
  destruct (IH s) as [pre H]. exists (String c pre). by rewrite app_cons, <- H.
Qed.

Lemma occursIn_suffix k pre s : occursIn k s → occursIn k (pre +:+ s).
Proof.
  intros (x & y & ->). exists (pre +:+ x), y. by rewrite app_assoc.
Qed.

Lemma test_spec p q :
  test p q = true ↔ ∃ pre s, q = pre +:+ s ∧ matchesHere p s = true.
Proof.
  induction q as [|c q IH]; simpl.
  - rewrite orb_false_r. split.
    + intros H. by exists "", "".
    + intros ([|d pre] & s & Hq & H); [|by rewrite app_cons in Hq].
      rewrite app_nil_l in Hq. by subst s.
  - rewrite orb_true_iff, IH. split.
    + intros [H|(pre & s & -> & H)].
      * by exists "", (String c q).
      * by exists (String c pre), s.
    + intros ([|d pre] & s & Hq & H).
      * left. rewrite app_nil_l in Hq. by subst s.
      * right. rewrite app_cons in Hq. injection Hq as -> ->. by exists pre, s.
Qed.

Lemma test_false p q :
  test p q = false ↔ ∀ pre s, q = pre +:+ s → matchesHere p s = false.
Proof.
  split.
  - intros H pre s Hq. destruct (matchesHere p s) eqn:Hm; [|done].
    assert (test p q = true) by (apply test_spec; eauto). congruence.
  - intros H. destruct (test p q) eqn:Ht; [|done].
    apply test_spec in Ht as (pre & s & Hq & Hm). by rewrite (H pre s Hq) in Hm.
Qed.

(** A query the pattern matches contains the pattern's head word. *)
Lemma test_mentions_head p q :
  plain (head p) = true → test p q = true → mentions (head p) q.
Proof.
  intros Hp (pre & s & -> & Hm)%test_spec.
  apply includes_lower_mentions; [done|].
  apply includes_spec. rewrite toLowerCase_app. apply occursIn_suffix.
  apply andb_true_iff in Hm as [Hm _].
  apply matchesLiteral_lower, startsWith_spec in Hm as [post Hpost]; [|done].
  exists "", post. by rewrite app_nil_l.
Qed.

Lemma matchesTail_spec alts s :
  matchesTail alts s = true ↔ ∃ alt, alt ∈ alts ∧ matchesTail [alt] s = true.
Proof.
  induction s as [|c s IH]; simpl.
  - rewrite orb_false_r, some_true. split.
    + intros (alt & Hin & H). exists alt. by rewrite H.
    + intros (alt & Hin & H). exists alt. split; [done|].
      by rewrite !orb_false_r in H.
  - rewrite orb_true_iff, andb_true_iff, IH, some_true. split.
    + intros [(alt & Hin & H)|[Hc (alt & Hin & H)]]; exists alt; (split; [done|]).
      * by rewrite H.
      * rewrite Hc, H. simpl. apply orb_true_r.
    + intros (alt & Hin & H). rewrite orb_false_r in H.
      apply orb_true_iff in H as [H|[Hc H]%andb_true_iff]; [left|right]; eauto.
Qed.

Lemma test_alternatives h alts q :
  test {| head := h; alternatives := alts |} q = true ↔
  ∃ alt, alt ∈ alts ∧ test {| head := h; alternatives := [alt] |} q = true.
Proof.
  rewrite test_spec. split.
  - intros (pre & s & Hq & [Hh Ht]%andb_true_iff). simpl in *.
    apply matchesTail_spec in Ht as (alt & Hin & Ht).
    exists alt. split; [done|]. apply test_spec. exists pre, s.
    split; [done|]. unfold matchesHere. simpl. by rewrite Hh, Ht.
  - intros (alt & Hin & (pre & s & Hq & [Hh Ht]%andb_true_iff)%test_spec).
    simpl in *. exists pre, s. split; [done|].
    unfold matchesHere. simpl. rewrite Hh. simpl.
    apply matchesTail_spec. eauto.
Qed.

Lemma matchesTail_mentions alt s :
  plain alt = true → matchesTail [alt] s = true →
  occursIn alt (toLowerCase s).
Proof.
  intros Hp. induction s as [|c s IH]; simpl; rewrite !orb_false_r.
  - intros H. apply matchesLiteral_lower, startsWith_spec in H as [post H]; [|done].
    exists "", post. by rewrite app_nil_l.
  - intros [H|[_ H]%andb_true_iff]%orb_true_iff.
    + apply matchesLiteral_lower, startsWith_spec in H as [post H]; [|done].
      exists "", post. by rewrite app_nil_l.
    + apply (occursIn_suffix alt (String (lowerChar c) "")). by apply IH.
Qed.

(** A query the pattern matches contains the alternative that matched. *)
Lemma test_mentions_alternative h alt q :
  plain alt = true →
  test {| head := h; alternatives := [alt] |} q = true → mentions alt q.
Proof.
  intros Hp (pre & s & -> & [_ Ht]%andb_true_iff)%test_spec. simpl in Ht.
  apply includes_lower_mentions; [done|].
  apply includes_spec. rewrite toLowerCase_app. apply occursIn_suffix.
  destruct (dropChars_suffix (String.length h) s) as [x Hx].
  rewrite Hx, toLowerCase_app. apply occursIn_suffix.
  by apply matchesTail_mentions.
Qed.

End JsProps.

(** ** The relevance filter *)

Module FilterProps.
Import Js Wording JsProps.

(** Membership in a list that is written out. *)
Ltac in_list :=
  repeat first [apply list_elem_of_here | apply list_elem_of_further].

(** Case analysis on a member of a list that is written out. *)
Ltac each_of H :=
  repeat (apply elem_of_cons in H as [->|H]); [..|by apply elem_of_nil in H].

Lemma bool_eq_iff (a b : bool) : (a = true ↔ b = true) → a = b.
Proof. destruct a, b; intros [H1 H2]; auto; symmetry; auto. Qed.

Lemma chat_keywords_plain : forallb plain ChatTs.northstoweKeywords = true.
Proof. vm_compute. reflexivity. Qed.

Lemma index_keywords_plain : forallb plain IndexTsx.northstoweKeywords = true.
Proof. vm_compute. reflexivity. Qed.

Lemma followUp_keywords_plain : forallb plain IndexTsx.followUpKeywords = true.
Proof. vm_compute. reflexivity. Qed.

Lemma trimStart_length s : String.length (trimStart s) ≤ String.length s.
Proof.
  induction s as [|c s IH]; simpl; [done|].
  destruct (isWhiteSpace c); simpl; lia.
Qed.

Lemma trimEnd_length s : String.length (trimEnd s) ≤ String.length s.
Proof.
  induction s as [|c s IH]; simpl; [done|].
  destruct (trimEnd s); [destruct (isWhiteSpace c)|]; simpl in *; lia.
Qed.

(** Trimming never lengthens: a query of at most 50 characters passes the
    length test of the follow-up branch. *)
Lemma trim_length s : String.length (trim s) ≤ String.length s.
Proof.
  unfold trim. etrans; [apply trimEnd_length|apply trimStart_length].
Qed.

(** The filter of [chat.ts] answers whether some keyword of its list is
    contained, in any letter case. *)
Lemma chat_filter_spec q :
  ChatTs.isNorthstoweRelated q = true ↔ mentionsAny ChatTs.northstoweKeywords q.
Proof.
  rewrite <- (some_keywords _ q chat_keywords_plain).
  unfold ChatTs.isNorthstoweRelated. cbv zeta.
  destruct (includes (toLowerCase q) "northstowe" ||
            includes (toLowerCase q) "north stowe") eqn:Hd; [|done].
  split; [intros _|done].
  apply some_true. apply orb_true_iff in Hd as [Hd|Hd].
  - exists "northstowe". split; [in_list|exact Hd].
  - exists "north stowe". split; [in_list|exact Hd].
Qed.

(** The filter of [index.tsx]: a keyword is contained, or the trimmed query
    has at most 50 characters and contains a follow-up keyword, or a
    fallback pattern matches. *)
Lemma index_filter_spec q :
  IndexTsx.isNorthstoweRelated q = true ↔
    mentionsAny IndexTsx.northstoweKeywords q ∨
    (String.length (trim q) ≤ 50 ∧ mentionsAny IndexTsx.followUpKeywords q) ∨
    (∃ p, p ∈ IndexTsx.localServicePatterns ∧ test p q = true).
Proof.
  rewrite <- (some_keywords _ q index_keywords_plain).
  rewrite <- (some_keywords _ q followUp_keywords_plain).
  rewrite <- (some_true (λ p, test p q)).
  unfold IndexTsx.isNorthstoweRelated. cbv zeta.
  destruct (includes (toLowerCase q) "northstowe" ||
            includes (toLowerCase q) "north stowe") eqn:Hd.
  - split; [intros _|done]. left.
    apply some_true. apply orb_true_iff in Hd as [Hd|Hd].
    + exists "northstowe". split; [in_list|exact Hd].
    + exists "north stowe". split; [in_list|exact Hd].
  - destruct (some _ IndexTsx.northstoweKeywords); [by split; auto|].
    destruct (bool_decide (String.length (trim q) ≤ 50)) eqn:Hlen; cbn [andb].
    + apply bool_decide_eq_true in Hlen.
      destruct (some _ IndexTsx.followUpKeywords); [by split; auto|].
      destruct (some _ IndexTsx.localServicePatterns); [by split; auto|].
      split; [done|]. by intros [?|[[_ ?]|?]].
    + apply bool_decide_eq_false in Hlen.
      destruct (some _ IndexTsx.localServicePatterns); [by split; auto|].
      split; [done|]. by intros [?|[[? _]|?]].
Qed.

Lemma test_head_false h alts q :
  plain h = true → ¬ mentions h q →
  test {| head := h; alternatives := alts |} q = false.
Proof.
  intros Hp Hno. destruct (test _ q) eqn:Ht; [|done].
  destruct Hno. by apply (test_mentions_head {| head := h; alternatives := alts |}).
Qed.

Lemma test_residual h alts alts' q :
  (∀ alt, alt ∈ alts → alt ∈ alts' ∨ (plain alt = true ∧ ¬ mentions alt q)) →
  (∀ alt, alt ∈ alts' → alt ∈ alts) →
  test {| head := h; alternatives := alts |} q =
  test {| head := h; alternatives := alts' |} q.
Proof.
  intros Hdrop Hsub. apply bool_eq_iff. rewrite !test_alternatives.
  split; intros (alt & Hin & Ht); exists alt; (split; [|done]); [|by apply Hsub].
  destruct (Hdrop alt Hin) as [?|[Hp Hno]]; [done|].
  destruct Hno. by apply test_mentions_alternative with h.
Qed.

(** C3, as the code has it.  A query that contains no locality or domain
    keyword (in any letter case) is out of scope for the filter of
    [chat.ts], whatever its length.  For the filter of [index.tsx], a query
    that contains no locality or domain keyword and no follow-up keyword is
    in scope exactly when it matches [/is.*(open|ready)/i] or
    [/are.*(any|open)/i], the part of the fallback patterns that such a
    query can still match; so it is out of scope when it matches neither.
    The length of the query plays no part: the statement holds in
    particular for queries longer than 50 characters. *)
Theorem no_keyword_out_of_scope_unless_pattern (q : string) :
  (¬ mentionsAny ChatTs.northstoweKeywords q →
     ChatTs.isNorthstoweRelated q = false) ∧
  (¬ mentionsAny IndexTsx.northstoweKeywords q →
   ¬ mentionsAny IndexTsx.followUpKeywords q →
     IndexTsx.isNorthstoweRelated q = (test isOpenOrReady q || test areAnyOrOpen q) ∧
     (test isOpenOrReady q = false → test areAnyOrOpen q = false →
        IndexTsx.isNorthstoweRelated q = false)).
Proof.
  split.
  - intros Hno. destruct (ChatTs.isNorthstoweRelated q) eqn:Hq; [|done].
    destruct Hno. by apply chat_filter_spec.
  - intros Hkw Hfu.
    assert (Hword : ∀ w, w ∈ IndexTsx.followUpKeywords → ¬ mentions w q).
    { intros w Hin Hm. apply Hfu. by exists w. }
    assert (IndexTsx.isNorthstoweRelated q =
            (test isOpenOrReady q || test areAnyOrOpen q)) as Heq.
    { apply bool_eq_iff. rewrite index_filter_spec, orb_true_iff. split.
      - intros [?|[[_ ?]|(p & Hin & Ht)]]; [done..|].
        unfold IndexTsx.localServicePatterns in Hin. each_of Hin.
        + rewrite test_head_false in Ht; [done|done|]. apply Hword. in_list.
        + rewrite test_head_false in Ht; [done|done|]. apply Hword. in_list.
        + rewrite test_head_false in Ht; [done|done|]. apply Hword. in_list.
        + rewrite test_head_false in Ht; [done|done|]. apply Hword. in_list.
        + left. rewrite <- Ht. symmetry. apply test_residual.
          * intros alt Hin. each_of Hin; [left; in_list | right | left; in_list].
            split; [done|]. apply Hword. in_list.
          * intros alt Hin. each_of Hin; in_list.
        + right. rewrite <- Ht. symmetry. apply test_residual.
          * intros alt Hin. each_of Hin; [right | left; in_list | left; in_list].
            split; [done|]. apply Hword. in_list.
          * intros alt Hin. each_of Hin; in_list.
      - intros [Ht|Ht]; right; right.
        + exists {| head := "is"; alternatives := ["open"; "available"; "ready"] |}.
          split; [unfold IndexTsx.localServicePatterns; in_list|].
          apply test_alternatives in Ht as (alt & Hin & Ht).
          apply test_alternatives. exists alt. split; [|done].
          each_of Hin; in_list.
        + exists {| head := "are"; alternatives := ["there"; "any"; "open"] |}.
          split; [unfold IndexTsx.localServicePatterns; in_list|].
          apply test_alternatives in Ht as (alt & Hin & Ht).
          apply test_alternatives. exists alt. split; [|done].
          each_of Hin; in_list. }
    split; [done|]. intros H5 H6. by rewrite Heq, H5, H6.
Qed.

Lemma no_keyword_out_of_scope_unless_pattern_witness :
  ChatTs.isNorthstoweRelated recipeQuery = false ∧
  IndexTsx.isNorthstoweRelated recipeQuery = false.
Proof.
  destruct (no_keyword_out_of_scope_unless_pattern recipeQuery) as [Hchat Hindex].
  split.
  - apply Hchat. apply (some_keywords_false _ _ chat_keywords_plain).
    vm_compute. reflexivity.
  - apply Hindex.
    + apply (some_keywords_false _ _ index_keywords_plain). vm_compute. reflexivity.
    + apply (some_keywords_false _ _ followUp_keywords_plain). vm_compute. reflexivity.
    + vm_compute. reflexivity.
    + vm_compute. reflexivity.
Defined.

(** C3 as stated fails on the filter of [index.tsx]: this query has 71
    characters and contains neither a locality or domain keyword nor a
    follow-up keyword, and the filter returns true, through the fallback
    pattern [/is.*(open|available|ready)/i]. *)
Lemma long_query_without_keywords_in_scope :
  50 < String.length pizzaQuery ∧
  ¬ mentionsAny IndexTsx.northstoweKeywords pizzaQuery ∧
  ¬ mentionsAny IndexTsx.followUpKeywords pizzaQuery ∧
  IndexTsx.isNorthstoweRelated pizzaQuery = true.
Proof.
  split; [vm_compute; lia|]. split; [|split].
  - apply (some_keywords_false _ _ index_keywords_plain). vm_compute. reflexivity.
  - apply (some_keywords_false _ _ followUp_keywords_plain). vm_compute. reflexivity.
  - vm_compute. reflexivity.
Qed.

(** C4, as the code has it.  In the revisions of [index.tsx], a query whose
    trimmed text has at most 50 characters (as every query of at most 50
    characters has) and that contains a follow-up keyword in any letter case
    is in scope, with or without a locality keyword.  The filter of
    [chat.ts] has no follow-up list: it returns true exactly when the query
    contains one of its locality or domain keywords. *)
Theorem short_follow_up_in_scope (q : string) :
  String.length (trim q) ≤ 50 →
  mentionsAny IndexTsx.followUpKeywords q →
  IndexTsx.isNorthstoweRelated q = true ∧
  (ChatTs.isNorthstoweRelated q = true ↔ mentionsAny ChatTs.northstoweKeywords q).
Proof.
  intros Hlen Hfu. split; [|apply chat_filter_spec].
  apply index_filter_spec. right. left. done.
Qed.

Lemma startQuery_mentions_when : mentions "when" startQuery.
Proof.
  exists "  ", "When", " does it start?  ". split; [reflexivity|].
  simpl. repeat split; (by left) || (by right).
Qed.

Lemma short_follow_up_in_scope_witness :
  IndexTsx.isNorthstoweRelated startQuery = true.
Proof.
  apply (short_follow_up_in_scope startQuery).
  - vm_compute. lia.
  - exists "when". split; [|apply startQuery_mentions_when].
    unfold IndexTsx.followUpKeywords. in_list.
Defined.

(** C4 as stated fails on the filter of [chat.ts]: the query has 23
    characters and contains the follow-up keyword "when", and the filter
    returns false. *)
Lemma short_follow_up_out_of_scope_in_chat :
  String.length startQuery ≤ 50 ∧
  mentionsAny IndexTsx.followUpKeywords startQuery ∧
  ChatTs.isNorthstoweRelated startQuery = false.
Proof.
  split; [vm_compute; lia|]. split; [|vm_compute; reflexivity].
  exists "when". split; [|apply startQuery_mentions_when].
  unfold IndexTsx.followUpKeywords. in_list.
Qed.

(** C5. A query that contains the locality name "northstowe", each letter
    in either case, is in scope, for the filter of [chat.ts] and for the
    filter of the [index.tsx] revisions. *)
Theorem locality_name_in_scope (q : string) :
  mentions "northstowe" q →
  ChatTs.isNorthstoweRelated q = true ∧ IndexTsx.isNorthstoweRelated q = true.
Proof.
  intros Hm. apply (includes_lower_mentions "northstowe" q) in Hm; [|done].
  unfold ChatTs.isNorthstoweRelated, IndexTsx.isNorthstoweRelated. cbv zeta.
  by rewrite Hm.
Qed.

Lemma locality_name_in_scope_witness :
  ChatTs.isNorthstoweRelated "Anything new in NORTHstowe?" = true ∧
  IndexTsx.isNorthstoweRelated "Anything new in NORTHstowe?" = true.
Proof.
  apply (locality_name_in_scope "Anything new in NORTHstowe?").
  exists "Anything new in ", "NORTHstowe", "?". split; [reflexivity|].
  simpl. repeat split; (by left) || (by right).
Defined.

End FilterProps.

(** ** The query enhancer *)

Module EnhancerProps.
Import Js Wording JsProps.








End EnhancerProps.

(** ** The request handler of [chat.ts] *)

Module HandlerProps.
Import Js Wording ChatTs.
Local Open Scope Z_scope.

Lemma getRateLimitKey_withMessage req v :
  getRateLimitKey (withMessage req v) = getRateLimitKey req.
Proof. reflexivity. Qed.

(** The handler once the method is POST and the gate lets the request in. *)
Lemma handler_admitted now apiKey req m :
  method req = "POST" →
  (RateLimit.isRateLimited now (getRateLimitKey req) m).1 = false →
  handler now apiKey req m =
    (if negb (truthy (message req)) || negb (isString (message req)) then
       Ret (respond 400 (ErrorJson "Message is required" None))
     else if negb (isNorthstoweRelated (stringOf (message req))) then
       Ret (respond 200 (ResponseJson notRelatedText (Some true)))
     else
       match nonEmpty apiKey with
       | None => Ret (respond 500 (ErrorJson "API key not configured" None))
       | Some key =>
           Await (upstreamCall key
                    (enhanceQueryForNorthstowe (stringOf (message req))))
                 onSettled
       end,
     (RateLimit.isRateLimited now (getRateLimitKey req) m).2).
Proof.
  intros Hpost Hgate. unfold handler.
  rewrite bool_decide_eq_true_2 by done. cbn [negb].
  destruct (RateLimit.isRateLimited now (getRateLimitKey req) m) as [b m'].
  simpl in Hgate. by subst b.
Qed.

(** No path of the handler awaits more than one upstream call. *)
Lemma handler_calls_at_most_once now apiKey req m upstream n :
  (length (run upstream n (handler now apiKey req m).1).2 ≤ 1)%nat.
Proof.
  unfold handler.
  destruct (negb (bool_decide (method req = "POST"))); [simpl; lia|].
  destruct (RateLimit.isRateLimited _ _ _) as [[] m']; [simpl; lia|]. cbn [fst].
  destruct (negb (truthy _) || negb (isString _)); [simpl; lia|].
  destruct (negb (isNorthstoweRelated _)); [simpl; lia|].
  destruct (nonEmpty apiKey); [|simpl; lia].
  cbn [run]. unfold onSettled.
  destruct (upstream n _) as [data|error]; [|simpl; lia].
  destruct (firstContent data) as [[text|]|]; [|simpl; lia..].
  unfold nonEmpty. destruct (bool_decide (text = "")); simpl; lia.
Qed.

(** C6. A POST request that the gate lets in, whose [message] is a
    non-empty string, and whose message the relevance filter classifies as
    out of scope, is answered with status 200, the canned refusal as
    [response] and [notRelated: true]; the computation returns without
    awaiting anything, so no upstream call is made whatever the upstream
    would answer.  The map is the one the gate left. *)
Theorem out_of_scope_refused_without_upstream_call
    (now : Z) (apiKey : option string) (req : Request)
    (m : RateLimit.RateMap) (upstream : nat → AxiosCall → AxiosResult) (n : nat) :
  method req = "POST" →
  (RateLimit.isRateLimited now (getRateLimitKey req) m).1 = false →
  truthy (message req) = true →
  isString (message req) = true →
  isNorthstoweRelated (stringOf (message req)) = false →
  handler now apiKey req m =
    (Ret {| status := 200;
            json := ResponseJson
              "I'm sorry, I can only answer questions related to Northstowe. Please ask me about local services, facilities, developments, or community information in Northstowe."
              (Some true) |},
     (RateLimit.isRateLimited now (getRateLimitKey req) m).2) ∧
  (run upstream n (handler now apiKey req m).1).2 = [].
Proof.
  intros Hpost Hgate Htruthy Hstring Hfilter.
  rewrite handler_admitted by done.
  by rewrite Htruthy, Hstring, Hfilter.
Qed.

Lemma out_of_scope_refused_without_upstream_call_witness :
  (handler 1000 (Some "pplx-key") (post (JsString recipeQuery)) ∅).1 =
    Ret (respond 200 (ResponseJson notRelatedText (Some true))) ∧
  (run (rejecting 401) 0 (handler 1000 (Some "pplx-key") (post (JsString recipeQuery)) ∅).1).2 = [].
Proof.
  destruct (out_of_scope_refused_without_upstream_call 1000 (Some "pplx-key")
              (post (JsString recipeQuery)) ∅ (rejecting 401) 0) as [Hresp Hcalls].
  - reflexivity.
  - vm_compute. reflexivity.
  - vm_compute. reflexivity.
  - reflexivity.
  - vm_compute. reflexivity.
  - split; [|exact Hcalls]. by rewrite Hresp.
Defined.

(** C7. When the request reaches the upstream call (POST, let in by the
    gate, a non-empty in-scope message, a configured key) and the call is
    rejected, the response is: for an axios error carrying the upstream
    status 401, status 500 with an authentication message; for 403, status
    500 with a permission message; for 429, status 429; for every other
    rejection (another status, no response at all, or a thrown value that is
    not an axios error), status 500 with the generic message.  Exactly one
    upstream call is made: the rejected call is not repeated, whatever the
    upstream would answer to a further call. *)
Theorem upstream_failure_mapped_without_retry
    (now : Z) (apiKey : option string) (key : string) (req : Request)
    (m : RateLimit.RateMap) (upstream : nat → AxiosCall → AxiosResult) (n : nat)
    (error : Thrown) :
  method req = "POST" →
  (RateLimit.isRateLimited now (getRateLimitKey req) m).1 = false →
  truthy (message req) = true →
  isString (message req) = true →
  isNorthstoweRelated (stringOf (message req)) = true →
  nonEmpty apiKey = Some key →
  upstream n (upstreamCall key (enhanceQueryForNorthstowe (stringOf (message req))))
    = Rejected error →
  run upstream n (handler now apiKey req m).1 =
    (match isAxiosError error, responseStatus error with
     | true, Some 401 =>
         {| status := 500;
            json := ErrorJson "API authentication failed - check your Perplexity API key" None |}
     | true, Some 403 =>
         {| status := 500;
            json := ErrorJson "API access forbidden - check your Perplexity API key permissions" None |}
     | true, Some 429 =>
         {| status := 429;
            json := ErrorJson "API rate limit exceeded. Please try again later." None |}
     | _, _ =>
         {| status := 500;
            json := ErrorJson "Failed to get response. Please try again." None |}
     end,
     [upstreamCall key (enhanceQueryForNorthstowe (stringOf (message req)))]).
Proof.
  intros Hpost Hgate Htruthy Hstring Hfilter Hkey Hup.
  rewrite handler_admitted by done.
  rewrite Htruthy, Hstring, Hfilter, Hkey. cbn [negb orb fst run].
  rewrite Hup. cbn [onSettled run]. f_equal.
  unfold onError, respond.
  destruct error as [[] [code|]]; cbn [isAxiosError responseStatus andb]; [|done..].
  destruct (decide (code = 401)) as [->|H401]; [done|].
  rewrite (bool_decide_eq_false_2 (Some code = Some 401)) by congruence.
  destruct (decide (code = 429)) as [->|H429]; [done|].
  rewrite (bool_decide_eq_false_2 (Some code = Some 429)) by congruence.
  destruct (decide (code = 403)) as [->|H403]; [done|].
  rewrite (bool_decide_eq_false_2 (Some code = Some 403)) by congruence.
  destruct code as [|p|p]; try done.
  do 9 (destruct p as [p|p|]; try done).
Qed.

Lemma upstream_failure_mapped_without_retry_witness :
  run (rejecting 403) 0
      (handler 1000 (Some "pplx-key") (post (JsString tescoQuery)) ∅).1 =
    (respond 500
       (ErrorJson "API access forbidden - check your Perplexity API key permissions" None),
     [upstreamCall "pplx-key" (enhanceQueryForNorthstowe tescoQuery)]).
Proof.
  apply (upstream_failure_mapped_without_retry 1000 (Some "pplx-key") "pplx-key"
           (post (JsString tescoQuery)) ∅ (rejecting 403) 0
           {| isAxiosError := true; responseStatus := Some 403 |}).
  - reflexivity.
  - vm_compute. reflexivity.
  - vm_compute. reflexivity.
  - reflexivity.
  - vm_compute. reflexivity.
  - reflexivity.
  - reflexivity.
Defined.

(** C10, as the code has it.  A POST request that the gate lets in and
    whose [message] is the empty string is answered with status 400 and the
    error "Message is required".  Whether or not the gate lets it in, the
    handler does for an empty-string message exactly what it does for a
    missing or non-string one: same response, same map afterwards. *)
Theorem empty_message_rejected_like_missing
    (now : Z) (apiKey : option string) (req : Request) (m : RateLimit.RateMap) :
  (method req = "POST" →
   (RateLimit.isRateLimited now (getRateLimitKey req) m).1 = false →
     (handler now apiKey (withMessage req (JsString "")) m).1 =
       Ret {| status := 400; json := ErrorJson "Message is required" None |}) ∧
  (∀ v, isString v = false →
     handler now apiKey (withMessage req v) m =
     handler now apiKey (withMessage req (JsString "")) m).
Proof.
  split.
  - intros Hpost Hgate. by rewrite handler_admitted.
  - intros v Hv. unfold handler. cbn [method message withMessage].
    rewrite !getRateLimitKey_withMessage.
    destruct (negb (bool_decide (method req = "POST"))); [done|].
    destruct (RateLimit.isRateLimited _ _ _) as [[] m']; [done|].
    by rewrite Hv, orb_true_r.
Qed.

(** A request the gate lets in, and a request it blocks: the address has
    used up its window. *)
Lemma empty_message_rejected_like_missing_witness :
  (handler 1000 (Some "pplx-key") (post (JsString "")) ∅).1 =
    Ret (respond 400 (ErrorJson "Message is required" None)) ∧
  handler 2000 (Some "pplx-key") (post JsUndefined)
      {[ "203.0.113.7" :=
           {| RateLimit.count := 5; RateLimit.resetTime := 301000 |} ]} =
    handler 2000 (Some "pplx-key") (post (JsString ""))
      {[ "203.0.113.7" :=
           {| RateLimit.count := 5; RateLimit.resetTime := 301000 |} ]}.
Proof.
  split.
  - apply (empty_message_rejected_like_missing 1000 (Some "pplx-key")
             (post JsUndefined) ∅).
    + reflexivity.
    + vm_compute. reflexivity.
  - apply (empty_message_rejected_like_missing 2000 (Some "pplx-key")
             (post JsUndefined)
             {[ "203.0.113.7" :=
                  {| RateLimit.count := 5; RateLimit.resetTime := 301000 |} ]}).
    reflexivity.
Defined.

(** C10 as stated fails when the gate blocks: of six POST requests with an
    empty message from one address inside the window, the first five are
    answered 400 and the sixth 429 with [rateLimited: true]. *)
Lemma sixth_empty_message_gets_429 :
  (handleAll (Some "pplx-key")
     [ (1000, post (JsString "")); (1001, post (JsString ""));
       (1002, post (JsString "")); (1003, post (JsString ""));
       (1004, post (JsString "")); (1005, post (JsString "")) ] ∅).1 =
  [ Ret (respond 400 (ErrorJson "Message is required" None));
    Ret (respond 400 (ErrorJson "Message is required" None));
    Ret (respond 400 (ErrorJson "Message is required" None));
    Ret (respond 400 (ErrorJson "Message is required" None));
    Ret (respond 400 (ErrorJson "Message is required" None));
    Ret (respond 429
           (ErrorJson "Too many requests. Please wait a moment before asking another question."
                      (Some true))) ].
Proof. vm_compute. reflexivity. Qed.

(** A reply without [choices] makes the [try] block throw; the response is
    the generic 500 of the [catch] block. *)
Lemma malformed_reply_generic_500 :
  onSettled (Fulfilled {| choices := None |}) =
    Ret (respond 500 (ErrorJson "Failed to get response. Please try again." None)).
Proof. reflexivity. Qed.

(** An in-scope question is sent upstream once, enhanced, and the first
    choice's text comes back verbatim with status 200. *)
Lemma surgery_question_answered (answer : string) :
  answer ≠ "" →
  run (λ _ _, Fulfilled {| choices := Some
         [ {| choiceMessage := Some {| messageContent := Some answer |} |} ] |}) 0
      (handler 1000 (Some "pplx-key")
         (post (JsString "When is the GP surgery opening?")) ∅).1 =
    (respond 200 (ResponseJson answer None),
     [upstreamCall "pplx-key"
        (enhanceQueryForNorthstowe "When is the GP surgery opening?")]).
Proof.
  intros Hne.
  rewrite handler_admitted by (reflexivity || (vm_compute; reflexivity)).
  change (message (post (JsString "When is the GP surgery opening?")))
    with (JsString "When is the GP surgery opening?").
  assert (isNorthstoweRelated "When is the GP surgery opening?" = true) as Hrel
    by (vm_compute; reflexivity).
  cbn [isString stringOf negb orb]. rewrite Hrel.
  change (truthy (JsString "When is the GP surgery opening?")) with true.
  cbn [negb nonEmpty fst]. change (bool_decide ("pplx-key" = "")) with false.
  cbn [orb run onSettled firstContent choices choiceMessage messageContent nonEmpty].
  by rewrite bool_decide_eq_false_2.
Qed.

End HandlerProps.

(** ** More on the request gate *)

Module GateTraceProps.
Import RateLimit RateLimitProps GateTrace.
Local Set Warnings "-clear-no-such-hyp".
Local Open Scope Z_scope.

(** What a call returns and the entry it leaves depend on the caller's
    entry only. *)
Lemma isRateLimited_local now k m m' :
  m !! k = m' !! k →
  (isRateLimited now k m).1 = (isRateLimited now k m').1 ∧
  (isRateLimited now k m).2 !! k = (isRateLimited now k m').2 !! k.
Proof.
  intros H. unfold isRateLimited. rewrite <- H.
  destruct (m !! k) as [e|] eqn:Hm; repeat case_bool_decide; simpl;
    rewrite ?lookup_insert_eq; split; congruence.
Qed.

Lemma runCalls_local k calls : ∀ m m',
  m !! k = m' !! k →
  (∀ c, c ∈ calls → c.2 = k) →
  (runCalls calls m).1 = (runCalls calls m').1 ∧
  (runCalls calls m).2 !! k = (runCalls calls m').2 !! k.
Proof.
  induction calls as [|[t key] calls IH]; intros m m' H Hall; [done|].
  assert (key = k) as -> by (apply (Hall (t, key)); left).
  rewrite !runCalls_cons. simpl.
  destruct (isRateLimited_local t k m m' H) as [Hb Hm].
  destruct (IH _ _ Hm) as [Hbs Hms]; [intros c Hc; apply Hall; by right|].
  by rewrite Hb, Hbs.
Qed.

(** X1. Keys do not interfere: in any run, the results of the calls with
    key [k] and the entry [k] ends with are those of the run of these calls
    alone. *)
Theorem keys_do_not_interfere (k : string) (calls : list (Z * string)) (m : RateMap) :
  resultsOf k calls (runCalls calls m).1 = (runCalls (callsOf k calls) m).1 ∧
  (runCalls calls m).2 !! k = (runCalls (callsOf k calls) m).2 !! k.
Proof.
  revert m. induction calls as [|[t key] calls IH]; intros m; [done|].
  rewrite runCalls_cons. unfold callsOf. rewrite filter_cons. simpl.
  destruct (decide (key = k)) as [->|Hne].
  - rewrite runCalls_cons. simpl.
    destruct (IH (isRateLimited t k m).2) as [Hr Hm]. unfold callsOf in *.
    by rewrite Hr, Hm.
  - destruct (IH (isRateLimited t key m).2) as [Hr Hm]. rewrite Hr, Hm.
    apply runCalls_local.
    + by apply isRateLimited_other.
    + intros c [Hc _]%list_elem_of_filter. done.
Qed.

Lemma isRateLimited_dom now key m :
  dom (isRateLimited now key m).2 = {[key]} ∪ dom m.
Proof.
  assert (m !! key ≠ None → {[key]} ∪ dom m = dom m) as Hin.
  { intros H. apply not_eq_None_Some, elem_of_dom in H. set_solver. }
  unfold isRateLimited.
  destruct (m !! key) as [e|] eqn:Hm; repeat case_bool_decide; simpl;
    rewrite ?dom_insert_L; try done.
  by rewrite Hin by congruence.
Qed.

(** X2. No entry is ever removed: after any run the map holds an entry for
    every key it held before and for every key that called, and for no
    other. *)
Theorem entries_are_never_removed (calls : list (Z * string)) (m : RateMap) :
  dom (runCalls calls m).2 = dom m ∪ keysOf calls.
Proof.
  revert m. induction calls as [|[t key] calls IH]; intros m.
  - unfold keysOf. simpl. set_solver.
  - rewrite runCalls_cons. simpl. rewrite IH, isRateLimited_dom.
    unfold keysOf. simpl. set_solver.
Qed.

(** X3. The window is fixed, not sliding: when a call at [t1] opens a
    window, four more calls in the last millisecond of the window and five
    in the next millisecond are all allowed, nine calls within two
    milliseconds. *)
Theorem nine_calls_across_the_boundary (k : string) (m : RateMap) (t1 : Z) :
  opensWindow m k t1 →
  (runCalls (boundaryBurst k t1) m).1 = replicate 10 false.
Proof.
  intros Hopen. unfold boundaryBurst. cbn [replicate app].
  rewrite !runCalls_cons. cbn [runCalls fst snd].
  rewrite (opensWindow_call _ _ _ Hopen). cbn [fst snd].
  do 4 (erewrite (isRateLimited_counted _ k (<[k:=_]> _));
        [|apply lookup_insert_eq
         |simpl; unfold RATE_WINDOW; lia
         |simpl; unfold RATE_LIMIT; lia];
        cbn [fst snd count resetTime freshEntry]).
  erewrite (isRateLimited_expired _ k (<[k:=_]> _));
    [|apply lookup_insert_eq|simpl; lia].
  cbn [fst snd].
  do 4 (erewrite (isRateLimited_counted _ k (<[k:=_]> _));
        [|apply lookup_insert_eq
         |simpl; unfold RATE_WINDOW; lia
         |simpl; unfold RATE_LIMIT; lia];
        cbn [fst snd count resetTime freshEntry]).
  done.
Qed.

Lemma nine_calls_across_the_boundary_witness :
  (runCalls (boundaryBurst "10.0.0.1" 1000) ∅).1 = replicate 10 false.
Proof. apply (nine_calls_across_the_boundary "10.0.0.1" ∅ 1000). exact I. Defined.

End GateTraceProps.

(** ** More on the handler of [chat.ts] *)

Module HandlerTraceProps.
Import RateLimit RateLimitProps GateTrace ChatTs HandlerProps.
Local Open Scope Z_scope.

Lemma handleAll_cons apiKey now req reqs m :
  handleAll apiKey ((now, req) :: reqs) m =
    ((handler now apiKey req m).1 :: (handleAll apiKey reqs (handler now apiKey req m).2).1,
     (handleAll apiKey reqs (handler now apiKey req m).2).2).
Proof.
  simpl. destruct (handler now apiKey req m) as [p m1]. simpl.
  by destruct (handleAll apiKey reqs m1).
Qed.

(** The map after the handler: the gate's, for a POST request. *)
Lemma handler_map now apiKey req m :
  (handler now apiKey req m).2 =
    if bool_decide (method req = "POST")
    then (isRateLimited now (getRateLimitKey req) m).2 else m.
Proof.
  unfold handler. case_bool_decide; [|done]. cbn [negb].
  by destruct (isRateLimited _ _ _) as [[] m'].
Qed.

(** The handler answers "too many requests" exactly when it is a POST
    request that the gate blocks. *)
Lemma handler_blocked now apiKey req m :
  (handler now apiKey req m).1 = Ret tooManyRequests ↔
  method req = "POST" ∧ (isRateLimited now (getRateLimitKey req) m).1 = true.
Proof.
  unfold handler. case_bool_decide as Hpost; cbn [negb].
  - destruct (isRateLimited _ _ _) as [[] m']; cbn [fst].
    + by split.
    + split; [|by intros [_ ?]].
      destruct (negb (truthy _) || negb (isString _)); [done|].
      destruct (negb (isNorthstoweRelated _)); [done|].
      by destruct (nonEmpty apiKey).
  - split; [done|]. by intros [? _].
Qed.

(** X4. The gate counts every POST request and nothing else: the map after
    a sequence of requests is the map after the gate's calls for the POST
    requests among them, whatever their bodies, whatever the API key and
    whatever responses they got. *)
Theorem every_post_is_counted
    (apiKey : option string) (reqs : list (Z * Request)) (m : RateMap) :
  (handleAll apiKey reqs m).2 = (runCalls (gateCalls reqs) m).2.
Proof.
  revert m. induction reqs as [|[now req] reqs IH]; intros m; [done|].
  rewrite handleAll_cons. cbn [snd]. rewrite IH, handler_map.
  unfold gateCalls. cbn [omap list_omap fst snd]. fold (gateCalls reqs).
  case_bool_decide; [|done]. by rewrite runCalls_cons.
Qed.

Lemma handleAll_length apiKey reqs : ∀ m,
  length (handleAll apiKey reqs m).1 = length reqs.
Proof.
  induction reqs as [|[now req] reqs IH]; intros m; [done|].
  rewrite handleAll_cons. simpl. by rewrite IH.
Qed.

(** For POST requests, the responses that say "too many requests" are at
    the positions where the gate returned blocked. *)
Lemma handleAll_blocked apiKey reqs : ∀ m i,
  Forall (λ r, method r.2 = "POST") reqs →
  (handleAll apiKey reqs m).1 !! i = Some (Ret tooManyRequests) ↔
  (runCalls (gateCalls reqs) m).1 !! i = Some true.
Proof.
  induction reqs as [|[now req] reqs IH]; intros m i Hpost; [done|].
  apply Forall_cons in Hpost as [Hp Hpost]. simpl in Hp.
  rewrite handleAll_cons. unfold gateCalls. cbn [omap list_omap fst snd].
  fold (gateCalls reqs). rewrite bool_decide_eq_true_2 by done.
  rewrite runCalls_cons. cbn [fst].
  destruct i as [|i]; simpl.
  - split.
    + intros [= H]. apply handler_blocked in H as [_ H]. by rewrite H.
    + intros [= H]. f_equal. by apply handler_blocked.
  - rewrite handler_map, bool_decide_eq_true_2 by done. by apply IH.
Qed.

Lemma gateCalls_same_key k reqs :
  Forall (λ r, method r.2 = "POST" ∧ getRateLimitKey r.2 = k) reqs →
  gateCalls reqs = (λ r, (r.1, k)) <$> reqs.
Proof.
  induction 1 as [|[now req] reqs [Hp Hk] _ IH]; [done|].
  unfold gateCalls. cbn [omap list_omap fmap list_fmap fst snd] in *.
  fold (gateCalls reqs). by rewrite bool_decide_eq_true_2, IH, Hk by done.
Qed.

Lemma callsFor_same_key k (reqs : list (Z * Request)) i :
  (i ≤ length reqs)%nat →
  callsFor k (take i ((λ r, (r.1, k)) <$> reqs)) = i.
Proof.
  revert i. induction reqs as [|r reqs IH]; intros [|i] Hi; simpl in *;
    try done; try lia.
  rewrite callsFor_cons. simpl. rewrite decide_True by done.
  rewrite IH by lia. done.
Qed.

(** X5. Requests that share a key are limited whatever they carry: when a
    POST request opens a window for its key and further POST requests with
    the same key arrive while the clock has not passed the window, the
    first five are let in and the sixth and all later ones are answered
    429 with [rateLimited: true], whatever the bodies are and whatever the
    earlier requests were answered. *)
Theorem sixth_request_answered_429
    (apiKey : option string) (k : string) (t1 : Z) (first : Request)
    (rest : list (Z * Request)) (m : RateMap) (i : nat) :
  method first = "POST" →
  getRateLimitKey first = k →
  opensWindow m k t1 →
  Forall (λ r, method r.2 = "POST" ∧ getRateLimitKey r.2 = k ∧
               r.1 ≤ t1 + RATE_WINDOW) rest →
  (i < length ((t1, first) :: rest))%nat →
  (handleAll apiKey ((t1, first) :: rest) m).1 !! i = Some (Ret tooManyRequests)
  ↔ (5 ≤ i)%nat.
Proof.
  intros Hp Hk Hopen Hrest Hi.
  assert (Forall (λ r, method r.2 = "POST" ∧ getRateLimitKey r.2 = k)
            ((t1, first) :: rest)) as Hall.
  { apply Forall_cons. split; [done|].
    eapply Forall_impl; [exact Hrest|]. by intros r (? & ? & _). }
  rewrite handleAll_blocked
    by (eapply Forall_impl; [exact Hall|]; by intros r [? _]).
  rewrite (gateCalls_same_key k) by done.
  cbn [fmap list_fmap fst]. rewrite runCalls_cons.
  rewrite (opensWindow_call _ _ _ Hopen). cbn [fst snd].
  destruct i as [|i]; simpl; [split; [done|lia]|].
  simpl in Hi. apply Nat.succ_lt_mono in Hi.
  destruct (lookup_lt_is_Some_2 rest i Hi) as [[t r] Hr].
  assert (∀ now, (now, k) ∈ (λ r, (r.1, k)) <$> rest → now ≤ t1 + RATE_WINDOW)
    as Hin.
  { intros now ([t' r'] & [= ->] & Hin)%list_elem_of_fmap.
    rewrite Forall_forall in Hrest. by apply (Hrest _ Hin). }
  rewrite (runCalls_in_window k _ _ 1 (t1 + RATE_WINDOW)
             (lookup_insert_eq _ _ _) Hin i t)
    by (by rewrite list_lookup_fmap, Hr).
  rewrite callsFor_same_key by lia. split.
  - intros [= H]. apply bool_decide_eq_true in H. unfold RATE_LIMIT in H. lia.
  - intros H. f_equal. apply bool_decide_eq_true. unfold RATE_LIMIT. lia.
Qed.

(** Six clients that cannot be told apart, each with a different message,
    inside one window: the sixth is answered 429. *)
Lemma sixth_request_answered_429_witness :
  (handleAll (Some "pplx-key")
     [ (1000, unidentified (JsString "Is the library open?"));
       (1001, unidentified JsNull);
       (1002, unidentified (JsString ""));
       (1003, unidentified (JsString "What is the weather?"));
       (1004, unidentified JsUndefined);
       (301000, unidentified (JsString "Where is the school?")) ] ∅).1 !! 5%nat
  = Some (Ret tooManyRequests).
Proof.
  apply (sixth_request_answered_429 (Some "pplx-key") "unknown" 1000
           (unidentified (JsString "Is the library open?"))
           [ (1001, unidentified JsNull);
             (1002, unidentified (JsString ""));
             (1003, unidentified (JsString "What is the weather?"));
             (1004, unidentified JsUndefined);
             (301000, unidentified (JsString "Where is the school?")) ] ∅ 5).
  - reflexivity.
  - reflexivity.
  - exact I.
  - repeat (apply Forall_cons; split;
            [split; [reflexivity|split; [reflexivity|simpl; unfold RATE_WINDOW; lia]]|]).
    apply Forall_nil_2.
  - simpl. lia.
  - lia.
Defined.

Lemma runCalls_fresh_keys calls : ∀ m,
  NoDup (calls.*2) →
  (∀ k, k ∈ calls.*2 → m !! k = None) →
  (runCalls calls m).1 = replicate (length calls) false.
Proof.
  induction calls as [|[t k] calls IH]; intros m Hnd Hfresh; [done|].
  rewrite fmap_cons in Hnd, Hfresh. apply NoDup_cons in Hnd as [Hk Hnd].
  simpl in Hk, Hfresh.
  rewrite runCalls_cons, isRateLimited_absent by (apply Hfresh; left).
  simpl. f_equal. apply IH; [done|].
  intros k' Hk'. rewrite lookup_insert_ne by (intros ->; done).
  apply Hfresh. by right.
Qed.

(** X6. The key is whatever the client puts in [X-Forwarded-For]: POST
    requests that each carry a non-empty value of the header not seen
    before are never answered 429, however many they are, however fast
    they come, and even when they all come from one socket address. *)
Theorem fresh_forwarded_for_is_never_limited
    (apiKey : option string) (fs : list Forwarded) (m : RateMap) :
  Forall (λ f, forwardedFor f ≠ "") fs →
  NoDup (forwardedFor <$> fs) →
  (∀ f, f ∈ fs → m !! forwardedFor f = None) →
  Ret tooManyRequests ∉ (handleAll apiKey (forwardedRequest <$> fs) m).1.
Proof.
  intros Hne Hnd Hfresh Hin.
  apply list_elem_of_lookup in Hin as [i Hi].
  apply handleAll_blocked in Hi.
  2:{ apply Forall_fmap, Forall_true. by intros f. }
  assert (gateCalls (forwardedRequest <$> fs) =
          (λ f, (arrival f, forwardedFor f)) <$> fs) as Hcalls.
  { clear -Hne. induction Hne as [|f fs Hf _ IH]; [done|].
    unfold gateCalls in *. cbn [fmap list_fmap omap list_omap] in *.
    rewrite IH. cbn. unfold getRateLimitKey, nonEmpty. cbn.
    rewrite (bool_decide_eq_false_2 (forwardedFor f = "")) by done.
    by rewrite bool_decide_eq_true_2. }
  rewrite Hcalls in Hi.
  rewrite runCalls_fresh_keys in Hi.
  - apply lookup_replicate in Hi as [? _]. done.
  - by rewrite <- list_fmap_compose.
  - intros k. rewrite <- list_fmap_compose.
    intros (f & -> & Hf)%list_elem_of_fmap. by apply Hfresh.
Qed.

Lemma fresh_forwarded_for_is_never_limited_witness :
  Ret tooManyRequests ∉
    (handleAll (Some "pplx-key")
       (forwardedRequest <$>
          [ {| arrival := 1000; forwardedFor := "a"; socketAddress := Some "10.0.0.1";
               body := JsString "" |};
            {| arrival := 1000; forwardedFor := "b"; socketAddress := Some "10.0.0.1";
               body := JsString "" |};
            {| arrival := 1000; forwardedFor := "c"; socketAddress := Some "10.0.0.1";
               body := JsString "" |};
            {| arrival := 1000; forwardedFor := "d"; socketAddress := Some "10.0.0.1";
               body := JsString "" |};
            {| arrival := 1000; forwardedFor := "e"; socketAddress := Some "10.0.0.1";
               body := JsString "" |};
            {| arrival := 1000; forwardedFor := "f"; socketAddress := Some "10.0.0.1";
               body := JsString "" |};
            {| arrival := 1000; forwardedFor := "g"; socketAddress := Some "10.0.0.1";
               body := JsString "" |} ]) ∅).1.
Proof.
  apply fresh_forwarded_for_is_never_limited.
  - repeat (apply Forall_cons; split; [discriminate|]). apply Forall_nil_2.
  - apply (bool_decide_unpack _). vm_compute. exact I.
  - intros f _. apply lookup_empty.
Defined.

Lemma run_onSettled upstream n r :
  (run upstream n (onSettled r)).2 = [].
Proof.
  destruct r as [data|error]; [|done]. simpl.
  destruct (firstContent data) as [[text|]|]; [|done..].
  simpl. by destruct (bool_decide (text = "")).
Qed.

(** X7. The upstream is called exactly when the request is a POST that the
    gate lets in, with a non-empty string message that the filter accepts,
    and an API key is configured; then it is called once, with the enhanced
    message and the key as bearer token.  In every other case no call is
    made. *)
Theorem upstream_called_exactly_when_all_checks_pass
    (now : Z) (apiKey : option string) (req : Request) (m : RateMap)
    (upstream : nat → AxiosCall → AxiosResult) (n : nat) :
  (run upstream n (handler now apiKey req m).1).2 =
    match reachesUpstream now apiKey req m with
    | Some call => [call]
    | None => []
    end.
Proof.
  unfold reachesUpstream, handler.
  case_bool_decide; cbn [negb andb]; [|done].
  destruct (isRateLimited _ _ _) as [[] m']; cbn [fst negb andb]; [done|].
  destruct (truthy (message req)); cbn [negb orb andb]; [|done].
  destruct (isString (message req)); cbn [negb andb]; [|done].
  destruct (isNorthstoweRelated _); cbn [negb]; [|done].
  destruct (nonEmpty apiKey); [|done].
  cbn [run]. destruct (run upstream (S n) _) as [a cs] eqn:Hrun.
  pose proof (run_onSettled upstream (S n) (upstream n
    (upstreamCall s (enhanceQueryForNorthstowe (stringOf (message req)))))) as Hnil.
  rewrite Hrun in Hnil. simpl in *. by subst cs.
Qed.

Lemma onError_fixed error :
  status (onError error) ∈ [429; 500] ∧
  ∃ e, json (onError error) = ErrorJson e None ∧ e ∈ errorTexts.
Proof.
  unfold onError, errorTexts.
  destruct (isAxiosError error); cbn [andb];
    repeat case_bool_decide; cbn [status json respond];
    (split; [FilterProps.in_list|eexists; split; [done|FilterProps.in_list]]).
Qed.

(** The status and the body of every response. *)
Lemma handler_stock
    (now : Z) (apiKey : option string) (req : Request) (m : RateMap)
    (upstream : nat → AxiosCall → AxiosResult) (n : nat) :
  status (run upstream n (handler now apiKey req m).1).1 ∈ statusCodes ∧
  match json (run upstream n (handler now apiKey req m).1).1 with
  | ResponseJson _ _ => status (run upstream n (handler now apiKey req m).1).1 = 200
  | ErrorJson e _ =>
      status (run upstream n (handler now apiKey req m).1).1 ≠ 200 ∧ e ∈ errorTexts
  end.
Proof.
  unfold handler, statusCodes, errorTexts.
  case_bool_decide; cbn [negb];
    [|cbn; split; [|split; [done|]]; FilterProps.in_list].
  destruct (isRateLimited _ _ _) as [[] m']; cbn [fst];
    [cbn; split; [|split; [done|]]; FilterProps.in_list|].
  destruct (negb (truthy _) || negb (isString _));
    [cbn; split; [|split; [done|]]; FilterProps.in_list|].
  destruct (negb (isNorthstoweRelated _));
    [cbn; split; [|done]; FilterProps.in_list|].
  destruct (nonEmpty apiKey);
    [|cbn; split; [|split; [done|]]; FilterProps.in_list].
  cbn [run].
  destruct (upstream n _) as [data|error]; cbn [onSettled].
  - destruct (firstContent data) as [[text|]|];
      [|cbn; split; [|split; [done|]]; FilterProps.in_list..].
    cbn [nonEmpty]. destruct (bool_decide (text = ""));
      cbn; (split; [|try (split; [done|])]); try done; FilterProps.in_list.
  - cbn [run fst].
    destruct (onError_fixed error) as [Hs (e & -> & He)]. split.
    + apply elem_of_cons in Hs as [->|Hs]; [FilterProps.in_list|].
      apply elem_of_cons in Hs as [->|Hs]; [FilterProps.in_list|].
      by apply elem_of_nil in Hs.
    + split; [|done]. intros H200. rewrite H200 in Hs.
      repeat (apply elem_of_cons in Hs as [Hs|Hs]; [done|]).
      by apply elem_of_nil in Hs.
Qed.

(** X8. The responses are drawn from a fixed stock: the status is one of
    200, 400, 405, 429 and 500; 200 always comes with a [response] body and
    every other status with an [error] body whose text is one of the nine
    fixed texts of the file, so nothing the upstream sent with a failure
    and nothing of the API key reaches the client. *)
Theorem responses_are_drawn_from_fixed_stock
    (now : Z) (apiKey : option string) (req : Request) (m : RateMap)
    (upstream : nat → AxiosCall → AxiosResult) (n : nat) :
  status (run upstream n (handler now apiKey req m).1).1 ∈ statusCodes ∧
  match json (run upstream n (handler now apiKey req m).1).1 with
  | ResponseJson _ _ => status (run upstream n (handler now apiKey req m).1).1 = 200
  | ErrorJson e _ =>
      status (run upstream n (handler now apiKey req m).1).1 ≠ 200 ∧ e ∈ errorTexts
  end.
Proof. apply handler_stock. Qed.

(** X9. The answer is the first choice's text, unchanged: when the request
    reaches the upstream call and the call is fulfilled with a first choice
    whose message has a non-empty content, the response is 200 with exactly
    that content and no [notRelated] field, whatever further choices the
    reply has; when there is no first choice, or it has no message, no
    content or an empty content, the response is 500 "No response from AI
    service".  One call is made in either case. *)
Theorem first_choice_returned_verbatim
    (now : Z) (apiKey : option string) (key : string) (req : Request)
    (m : RateMap) (upstream : nat → AxiosCall → AxiosResult) (n : nat)
    (cs : list Choice) :
  reachesUpstream now apiKey req m =
    Some (upstreamCall key (enhanceQueryForNorthstowe (stringOf (message req)))) →
  upstream n (upstreamCall key (enhanceQueryForNorthstowe (stringOf (message req))))
    = Fulfilled {| choices := Some cs |} →
  run upstream n (handler now apiKey req m).1 =
    (match cs with
     | {| choiceMessage := Some {| messageContent := Some text |} |} :: _ =>
         if bool_decide (text = "")
         then {| status := 500; json := ErrorJson "No response from AI service" None |}
         else {| status := 200; json := ResponseJson text None |}
     | _ => {| status := 500; json := ErrorJson "No response from AI service" None |}
     end,
     [upstreamCall key (enhanceQueryForNorthstowe (stringOf (message req)))]).
Proof.
  unfold reachesUpstream. intros Hreach Hup.
  destruct (bool_decide (method req = "POST")) eqn:Hpost; [|done].
  destruct (isRateLimited now (getRateLimitKey req) m).1 eqn:Hgate; [done|].
  destruct (truthy (message req)) eqn:Htruthy; [|done].
  destruct (isString (message req)) eqn:Hstring; [|done].
  destruct (isNorthstoweRelated _) eqn:Hfilter; [|done].
  cbn [negb andb] in Hreach.
  destruct (nonEmpty apiKey) as [key'|] eqn:Hkey; [|done].
  assert (key' = key) as ->.
  { injection Hreach as Hcall. exact Hcall. }
  apply bool_decide_eq_true in Hpost.
  rewrite handler_admitted by done.
  rewrite Htruthy, Hstring, Hfilter, Hkey. cbn [negb orb fst run].
  rewrite Hup. unfold onSettled, firstContent. cbn [choices].
  destruct cs as [|[[[[text|]]|]] cs']; try done.
  cbn [choiceMessage messageContent nonEmpty].
  by destruct (bool_decide (text = "")).
Qed.

Lemma first_choice_returned_verbatim_witness (answer := "It opens at nine.") :
  run (λ _ _, Fulfilled {| choices := Some
         [ {| choiceMessage := Some {| messageContent := Some answer |} |};
           {| choiceMessage := None |} ] |}) 0
      (handler 1000 (Some "pplx-key")
         (Wording.post (JsString "When is the GP surgery opening?")) ∅).1 =
    (respond 200 (ResponseJson answer None),
     [upstreamCall "pplx-key"
        (enhanceQueryForNorthstowe "When is the GP surgery opening?")]).
Proof.
  apply (first_choice_returned_verbatim 1000 (Some "pplx-key") "pplx-key"
           (Wording.post (JsString "When is the GP surgery opening?")) ∅
           (λ _ _, Fulfilled {| choices := Some
              [ {| choiceMessage := Some {| messageContent := Some answer |} |};
                {| choiceMessage := None |} ] |}) 0
           [ {| choiceMessage := Some {| messageContent := Some answer |} |};
             {| choiceMessage := None |} ]).
  - vm_compute. reflexivity.
  - reflexivity.
Defined.

End HandlerTraceProps.

(** ** The model probe of [test-perplexity.ts] *)

Module TestPerplexityProps.
Import TestPerplexity.

Lemma run_bind_ret {A B} upstream (g : A → B) (p : Prog A) : ∀ n,
  run upstream n (bind p (λ a, Ret (g a))) =
    (g (run upstream n p).1, (run upstream n p).2).
Proof.
  induction p as [a|c k IH]; intros n; [done|].
  cbn [bind run]. rewrite IH. by destruct (run upstream (S n) _).
Qed.

(** The loop, run: it pushes one result per attempt and makes one call per
    attempt. *)
Lemma probe_run upstream key models : ∀ n results,
  run upstream n (probe key models results) =
    (results ++ ((λ a, resultOf a.1 a.2) <$> attempts upstream n key models),
     (λ a, probeCall key a.1) <$> attempts upstream n key models).
Proof.
  induction models as [|model rest IH]; intros n results.
  - simpl. by rewrite app_nil_r.
  - cbn [probe run attempts].
    destruct (upstream n (probeCall key model)) as [[[cs|]]|error];
      cbn [succeeds resultOf ChatTs.choices run fmap list_fmap fst snd].
    + done.
    + rewrite IH. cbn. by rewrite <- app_assoc.
    + rewrite IH. cbn. by rewrite <- app_assoc.
Qed.

Lemma attempts_prefix upstream key models : ∀ n,
  (attempts upstream n key models).*1 =
    take (length (attempts upstream n key models)) models.
Proof.
  induction models as [|model rest IH]; intros n; [done|].
  cbn [attempts]. destruct (succeeds _); simpl; [by rewrite take_0|].
  by rewrite <- IH.
Qed.

Lemma attempts_length upstream key models n :
  length (attempts upstream n key models) ≤ length models ∧
  (models ≠ [] → 1 ≤ length (attempts upstream n key models)).
Proof.
  revert n. induction models as [|model rest IH]; intros n; [done|].
  cbn [attempts]. destruct (succeeds _); simpl; [split; lia|].
  destruct (IH (S n)). split; lia.
Qed.

(** Every attempt but the last failed; if the last failed too, every model
    was tried. *)
Lemma attempts_shape upstream key models : ∀ n,
  (∀ i a, attempts upstream n key models !! i = Some a →
          S i < length (attempts upstream n key models) → succeeds a.2 = false) ∧
  (∀ a, last (attempts upstream n key models) = Some a → succeeds a.2 = false →
        length (attempts upstream n key models) = length models).
Proof.
  induction models as [|model rest IH]; intros n; [done|].
  cbn [attempts].
  destruct (succeeds (upstream n (probeCall key model))) eqn:Hs.
  - split.
    + intros [|i] a Hi Hlt; simpl in *; lia.
    + intros a [= <-]. simpl. congruence.
  - destruct (IH (S n)) as [IH1 IH2]. split.
    + intros [|i] a Hi Hlt; simpl in *.
      * by injection Hi as <-.
      * apply (IH1 i a Hi). lia.
    + intros a Hlast Hf. simpl. f_equal.
      destruct (attempts upstream (S n) key rest) as [|b l] eqn:Hl.
      * destruct rest; [done|]. simpl in Hl. done.
      * rewrite last_cons_cons in Hlast. by apply (IH2 a).
Qed.

Lemma succeeds_resultOf model s : isFailed (resultOf model s) = negb (succeeds s).
Proof. by destruct s as [[[cs|]]|error]. Qed.

Lemma attempts_first_success upstream key models : ∀ n j model,
  models !! j = Some model →
  (∀ i m, i < j → models !! i = Some m →
          succeeds (upstream (n + i) (probeCall key m)) = false) →
  succeeds (upstream (n + j) (probeCall key model)) = true →
  length (attempts upstream n key models) = S j ∧
  last (attempts upstream n key models) =
    Some (model, upstream (n + j) (probeCall key model)).
Proof.
  induction models as [|m0 rest IH]; intros n j model Hj Hfail Hok; [done|].
  cbn [attempts]. destruct j as [|j]; simpl in Hj.
  - injection Hj as ->. rewrite Nat.add_0_r in Hok. rewrite Hok.
    by rewrite Nat.add_0_r.
  - assert (succeeds (upstream n (probeCall key m0)) = false) as ->.
    { specialize (Hfail 0 m0). rewrite Nat.add_0_r in Hfail. apply Hfail; [lia|done]. }
    destruct (IH (S n) j model Hj) as [Hlen Hlast].
    + intros i m Hi Hm. replace (S n + i) with (n + S i) by lia.
      apply Hfail; [lia|done].
    + by replace (S n + j) with (n + S j) by lia.
    + replace (S n + j) with (n + S j) in Hlast by lia.
      split; [simpl; by rewrite Hlen|].
      destruct (attempts upstream (S n) key rest); [done|].
      by rewrite last_cons_cons.
Qed.

(** X10. The probe always reports: for a GET request with a configured
    key the response is 200 with [apiKeyConfigured: true], the length of
    the key and between one and seven results, whatever the upstream does.
    The calls made are for the first models of [modelsToTest], in order,
    one per result; every result but the last is a failure, and if the last
    one is a failure too then all seven models were tried. *)
Theorem probe_always_reports
    (upstream : nat → ProbeCall → Settled) (n : nat)
    (apiKey : option string) (key : string) :
  ChatTs.nonEmpty apiKey = Some key →
  ∃ results,
    run upstream n (handler "GET" apiKey) =
      ({| status := 200; json := ReportJson true (String.length key) results |},
       probeCall key <$> take (length results) modelsToTest) ∧
    1 ≤ length results ≤ 7 ∧
    (∀ i r, results !! i = Some r → S i < length results → isFailed r = true) ∧
    (∀ r, last results = Some r → isFailed r = true → length results = 7).
Proof.
  intros Hkey. unfold handler. rewrite Hkey. cbn [bool_decide negb].
  rewrite bool_decide_eq_true_2 by done. cbn [negb].
  rewrite run_bind_ret, probe_run. cbn [fst snd app].
  exists ((λ a, resultOf a.1 a.2) <$> attempts upstream n key modelsToTest).
  rewrite length_fmap.
  destruct (attempts_length upstream key modelsToTest n) as [Hle Hge].
  destruct (attempts_shape upstream key modelsToTest n) as [Hinit Hlast].
  split; [|split; [|split]].
  - f_equal. rewrite <- attempts_prefix, <- list_fmap_compose. done.
  - split; [by apply Hge|exact Hle].
  - intros i r Hi Hlt. apply list_lookup_fmap_Some in Hi as (a & -> & Ha).
    rewrite succeeds_resultOf, (Hinit i a Ha Hlt). done.
  - intros r Hr Hf. rewrite fmap_last in Hr.
    destruct (last (attempts upstream n key modelsToTest)) as [a|] eqn:Ha; [|done].
    injection Hr as <-. rewrite succeeds_resultOf in Hf.
    apply (Hlast a); [done|]. by destruct (succeeds a.2).
Qed.

Lemma probe_always_reports_witness :
  ∃ results,
    run (failingFirst 7 "Hello!") 0 (handler "GET" (Some "pplx-key")) =
      ({| status := 200; json := ReportJson true 8 results |},
       probeCall "pplx-key" <$> take (length results) modelsToTest) ∧
    1 ≤ length results ≤ 7 ∧
    (∀ i r, results !! i = Some r → S i < length results → isFailed r = true) ∧
    (∀ r, last results = Some r → isFailed r = true → length results = 7).
Proof.
  apply (probe_always_reports (failingFirst 7 "Hello!") 0 (Some "pplx-key") "pplx-key").
  reflexivity.
Defined.

(** X11. The probe stops at the first model that answers: when the calls
    for the models before the [j]-th are rejected (or fulfilled without
    [choices]) and the call for the [j]-th is fulfilled with [choices], the
    calls made are exactly those for the first [j + 1] models, the later
    models are never tried, and the last result is the success of the
    [j]-th model with its first choice's content (or "No content"). *)
Theorem probe_stops_at_first_success
    (upstream : nat → ProbeCall → Settled) (n : nat)
    (apiKey : option string) (key : string)
    (j : nat) (model : string) (cs : list ChatTs.Choice) :
  ChatTs.nonEmpty apiKey = Some key →
  modelsToTest !! j = Some model →
  (∀ i m, i < j → modelsToTest !! i = Some m →
          succeeds (upstream (n + i) (probeCall key m)) = false) →
  upstream (n + j) (probeCall key model) =
    Fulfilled {| ChatTs.choices := Some cs |} →
  ∃ results,
    run upstream n (handler "GET" apiKey) =
      ({| status := 200; json := ReportJson true (String.length key) results |},
       probeCall key <$> take (S j) modelsToTest) ∧
    length results = S j ∧
    last results = Some (Success model (contentOrDefault cs)).
Proof.
  intros Hkey Hj Hfail Hok. unfold handler. rewrite Hkey.
  rewrite bool_decide_eq_true_2 by done. cbn [negb].
  rewrite run_bind_ret, probe_run. cbn [fst snd app].
  exists ((λ a, resultOf a.1 a.2) <$> attempts upstream n key modelsToTest).
  destruct (attempts_first_success upstream key modelsToTest n j model Hj Hfail)
    as [Hlen Hlast]; [by rewrite Hok|].
  split; [|split].
  - f_equal. rewrite <- Hlen, <- attempts_prefix, <- list_fmap_compose. done.
  - by rewrite length_fmap.
  - rewrite fmap_last, Hlast. cbn. by rewrite Hok.
Qed.

Lemma probe_stops_at_first_success_witness :
  ∃ results,
    run (failingFirst 2 "Hello!") 0 (handler "GET" (Some "pplx-key")) =
      ({| status := 200; json := ReportJson true 8 results |},
       [ probeCall "pplx-key" "sonar";
         probeCall "pplx-key" "sonar-small-online";
         probeCall "pplx-key" "sonar-medium-online" ]) ∧
    length results = 3 ∧
    last results = Some (Success "sonar-medium-online" "Hello!").
Proof.
  apply (probe_stops_at_first_success (failingFirst 2 "Hello!") 0
           (Some "pplx-key") "pplx-key" 2 "sonar-medium-online"
           [ {| ChatTs.choiceMessage :=
                  Some {| ChatTs.messageContent := Some "Hello!" |} |} ]).
  - reflexivity.
  - reflexivity.
  - intros i m Hi Hm. destruct i as [|[|i]]; [reflexivity|reflexivity|lia].
  - reflexivity.
Defined.

End TestPerplexityProps.

(** ** More on the filter and the enhancer *)

Module FilterMoreProps.
Import Js Wording JsProps FilterProps.

Lemma chat_keywords_in_index w :
  w ∈ ChatTs.northstoweKeywords → w ∈ IndexTsx.northstoweKeywords.
Proof.
  unfold ChatTs.northstoweKeywords. intros Hin.
  each_of Hin; unfold IndexTsx.northstoweKeywords; in_list.
Qed.

(** X12. The filter of the [index.tsx] revisions accepts every query that
    the filter of [chat.ts] accepts. *)
Theorem index_filter_accepts_what_chat_accepts (q : string) :
  ChatTs.isNorthstoweRelated q = true → IndexTsx.isNorthstoweRelated q = true.
Proof.
  intros (w & Hin & Hm)%chat_filter_spec.
  apply index_filter_spec. left. exists w.
  split; [by apply chat_keywords_in_index|done].
Qed.

Lemma index_filter_accepts_what_chat_accepts_witness :
  IndexTsx.isNorthstoweRelated "Is there a pharmacy?" = true.
Proof.
  apply (index_filter_accepts_what_chat_accepts "Is there a pharmacy?").
  vm_compute. reflexivity.
Defined.

(** *** Letter case *)

Lemma lowerChar_idem c : lowerChar (lowerChar c) = lowerChar c.
Proof. by destruct c as [[] [] [] [] [] [] [] []]. Qed.

Lemma canonicalize_lowerChar c : canonicalize (lowerChar c) = canonicalize c.
Proof. by destruct c as [[] [] [] [] [] [] [] []]. Qed.

Lemma isLineTerminator_lowerChar c :
  isLineTerminator (lowerChar c) = isLineTerminator c.
Proof. by destruct c as [[] [] [] [] [] [] [] []]. Qed.

Lemma isWhiteSpace_lowerChar c : isWhiteSpace (lowerChar c) = isWhiteSpace c.
Proof. by destruct c as [[] [] [] [] [] [] [] []]. Qed.

Lemma toLowerCase_idem s : toLowerCase (toLowerCase s) = toLowerCase s.
Proof. induction s as [|c s IH]; simpl; [done|]. by rewrite lowerChar_idem, IH. Qed.

Lemma trimStart_toLowerCase s :
  trimStart (toLowerCase s) = toLowerCase (trimStart s).
Proof.
  induction s as [|c s IH]; simpl; [done|].
  rewrite isWhiteSpace_lowerChar. by destruct (isWhiteSpace c).
Qed.

Lemma trimEnd_toLowerCase s :
  trimEnd (toLowerCase s) = toLowerCase (trimEnd s).
Proof.
  induction s as [|c s IH]; simpl; [done|].
  rewrite IH, isWhiteSpace_lowerChar.
  destruct (trimEnd s); simpl; [by destruct (isWhiteSpace c)|done].
Qed.

Lemma trim_toLowerCase s : trim (toLowerCase s) = toLowerCase (trim s).
Proof. unfold trim. by rewrite trimStart_toLowerCase, trimEnd_toLowerCase. Qed.

Lemma matchesLiteral_toLowerCase p : ∀ s,
  matchesLiteral (toLowerCase s) p = matchesLiteral s p.
Proof.
  induction p as [|b p IH]; intros [|a s]; simpl; try done.
  by rewrite canonicalize_lowerChar, IH.
Qed.

Lemma some_ext {A} (f g : A → bool) l : (∀ x, f x = g x) → some f l = some g l.
Proof. intros H. unfold some. induction l as [|x l IH]; simpl; [done|]. by rewrite H, IH. Qed.

Lemma matchesTail_toLowerCase alts s :
  matchesTail alts (toLowerCase s) = matchesTail alts s.
Proof.
  assert (∀ s, some (matchesLiteral (toLowerCase s)) alts =
               some (matchesLiteral s) alts) as Hsome.
  { intros s'. apply some_ext. intros p. apply matchesLiteral_toLowerCase. }
  induction s as [|c s IH].
  - reflexivity.
  - cbn [toLowerCase matchesTail].
    change (String (lowerChar c) (toLowerCase s)) with (toLowerCase (String c s)).
    by rewrite Hsome, IH, isLineTerminator_lowerChar.
Qed.

Lemma dropChars_toLowerCase n : ∀ s,
  dropChars n (toLowerCase s) = toLowerCase (dropChars n s).
Proof. induction n as [|n IH]; intros [|c s]; simpl; auto. Qed.

Lemma test_toLowerCase p s : test p (toLowerCase s) = test p s.
Proof.
  assert (∀ s, matchesHere p (toLowerCase s) = matchesHere p s) as Hhere.
  { intros s'. unfold matchesHere.
    by rewrite matchesLiteral_toLowerCase, dropChars_toLowerCase,
      matchesTail_toLowerCase. }
  induction s as [|c s IH].
  - reflexivity.
  - cbn [toLowerCase test].
    change (String (lowerChar c) (toLowerCase s)) with (toLowerCase (String c s)).
    by rewrite Hhere, IH.
Qed.

Lemma filters_on_lowered q :
  ChatTs.isNorthstoweRelated (toLowerCase q) = ChatTs.isNorthstoweRelated q ∧
  IndexTsx.isNorthstoweRelated (toLowerCase q) = IndexTsx.isNorthstoweRelated q.
Proof.
  unfold ChatTs.isNorthstoweRelated, IndexTsx.isNorthstoweRelated. cbv zeta.
  rewrite toLowerCase_idem, trim_toLowerCase, toLowerCase_length.
  rewrite (some_ext (λ pattern, test pattern (toLowerCase q)) (λ pattern, test pattern q))
    by (intros p; apply test_toLowerCase).
  done.
Qed.

Lemma lowerChar_capital c : lowerChar (capital c) = lowerChar c.
Proof. by destruct c as [[] [] [] [] [] [] [] []]. Qed.

Lemma sameUpToCase_toLowerCase q : ∀ q',
  LetterCase.sameUpToCase q q' → toLowerCase q = toLowerCase q'.
Proof.
  induction q as [|a s IH]; intros [|b s']; simpl; try done.
  intros [Hc Hs]. rewrite (IH s' Hs). f_equal.
  destruct Hc as [->|[->| ->]]; by rewrite ?lowerChar_capital.
Qed.

(** X13. Changing the case of ASCII letters does not change the
    classification: two queries of the same length that differ only in the
    case of ASCII letters get the same result from the filter of [chat.ts]
    and from the filter of the [index.tsx] revisions (keywords, the length
    test and the fallback patterns included). *)
Theorem filter_ignores_letter_case (q q' : string) :
  LetterCase.sameUpToCase q q' →
  ChatTs.isNorthstoweRelated q = ChatTs.isNorthstoweRelated q' ∧
  IndexTsx.isNorthstoweRelated q = IndexTsx.isNorthstoweRelated q'.
Proof.
  intros H%sameUpToCase_toLowerCase.
  destruct (filters_on_lowered q) as [<- <-].
  destruct (filters_on_lowered q') as [<- <-].
  by rewrite H.
Qed.

Lemma filter_ignores_letter_case_witness :
  ChatTs.isNorthstoweRelated "IS THE LIBRARY OPEN?" =
    ChatTs.isNorthstoweRelated "is the Library open?" ∧
  IndexTsx.isNorthstoweRelated "IS THE LIBRARY OPEN?" =
    IndexTsx.isNorthstoweRelated "is the Library open?".
Proof.
  apply (filter_ignores_letter_case "IS THE LIBRARY OPEN?" "is the Library open?").
  simpl. repeat split; (by left) || (by right; left) || (by right; right).
Defined.

(** *** The enhancer *)

Lemma mentions_app_l w pre s : mentions w s → mentions w (pre +:+ s).
Proof.
  intros (x & mid & y & -> & H). exists (pre +:+ x), mid, y.
  split; [by rewrite app_assoc|done].
Qed.

Lemma mentions_app_r w s post : mentions w s → mentions w (s +:+ post).
Proof.
  intros (x & mid & y & -> & H). exists x, mid, (y +:+ post).
  split; [by rewrite !app_assoc|done].
Qed.

Lemma mentions_computed w s :
  plain w = true → includes (toLowerCase s) w = true → mentions w s.
Proof. intros Hw H. by apply includes_lower_mentions. Qed.

Lemma locality_in_scope q :
  mentions "northstowe" q →
  (ChatTs.isNorthstoweRelated q = true) ∧ (IndexTsx.isNorthstoweRelated q = true).
Proof.
  intros Hm. split.
  - apply chat_filter_spec. exists "northstowe". split; [in_list|done].
  - apply index_filter_spec. left. exists "northstowe". split; [in_list|done].
Qed.

(** X14. Every enhanced query names the locality: whatever the query (and
    the date), the output of each of the four enhancers contains
    "Northstowe", so the enhanced text is itself in scope for both
    filters. *)
Theorem enhanced_query_names_the_locality (currentDate q : string) :
  (mentions "northstowe" (ChatTs.enhanceQueryForNorthstowe q) ∧
   mentions "northstowe" (IndexTsx.enhanceQueryForNorthstowe_402 currentDate q) ∧
   mentions "northstowe" (IndexTsx.enhanceQueryForNorthstowe_687 q) ∧
   mentions "northstowe" (IndexTsx.enhanceQueryForNorthstowe_963 q)) ∧
  (ChatTs.isNorthstoweRelated (ChatTs.enhanceQueryForNorthstowe q) = true ∧
   IndexTsx.isNorthstoweRelated
     (IndexTsx.enhanceQueryForNorthstowe_402 currentDate q) = true ∧
   IndexTsx.isNorthstoweRelated (IndexTsx.enhanceQueryForNorthstowe_687 q) = true ∧
   IndexTsx.isNorthstoweRelated (IndexTsx.enhanceQueryForNorthstowe_963 q) = true).
Proof.
  assert (mentions "northstowe" (ChatTs.enhanceQueryForNorthstowe q) ∧
   mentions "northstowe" (IndexTsx.enhanceQueryForNorthstowe_402 currentDate q) ∧
   mentions "northstowe" (IndexTsx.enhanceQueryForNorthstowe_687 q) ∧
   mentions "northstowe" (IndexTsx.enhanceQueryForNorthstowe_963 q)) as H.
  { unfold ChatTs.enhanceQueryForNorthstowe,
      IndexTsx.enhanceQueryForNorthstowe_402,
      IndexTsx.enhanceQueryForNorthstowe_687,
      IndexTsx.enhanceQueryForNorthstowe_963. cbv zeta.
    repeat split;
      repeat match goal with |- context [if ?b then _ else _] => destruct b end;
      first [ apply mentions_app_l, mentions_computed; [done|vm_compute; reflexivity]
            | apply mentions_app_r, mentions_computed; [done|vm_compute; reflexivity] ]. }
  split; [exact H|].
  destruct H as (H1 & H2 & H3 & H4).
  repeat split; by apply locality_in_scope.
Qed.

End FilterMoreProps.

(** ** The page's [sendMessage] *)

Module PageProps.
Import Page.
Local Open Scope Z_scope.

Lemma begin_posts clock mt st st1 msg :
  sendMessage_begin clock mt st = (st1, Some msg) →
  msg = textToSend mt st ∧ msg ≠ "" ∧ isLoading st = false ∧
  waitingFor (tCheck clock) (rateLimitInfo st) = None ∧
  messages st1 = messages st ++ [userMessage clock msg] ∧
  input st1 = "" ∧ isLoading st1 = true ∧
  isLimited (rateLimitInfo st1) = false.
Proof.
  unfold sendMessage_begin. cbv zeta.
  case_bool_decide as Htext; cbn [orb]; [done|].
  destruct (isLoading st) eqn:Hload; [done|].
  destruct (waitingFor _ _) eqn:Hwait; [done|].
  intros [= <- <-].
  repeat split; try done;
    destruct (isLimited (rateLimitInfo st)) eqn:Hlim; simpl; done.
Qed.

Lemma textToSend_cases mt st :
  textToSend mt st = Js.trim (input st) ∨ mt = Some (textToSend mt st).
Proof.
  unfold textToSend, ChatTs.nonEmpty.
  destruct mt as [t|]; [|by left].
  case_bool_decide; [by left|by right].
Qed.

(** X15. What the page posts: while a request is in flight, or when there
    is nothing to send (no sample question and an input that is empty or all
    white space), [sendMessage] changes nothing and posts nothing.
    Otherwise it posts at most one request, whose message is not empty and
    is either the sample question or the typed input with the white space
    at both ends removed. *)
Theorem page_posts_only_what_there_is_to_send
    (server : string → PostResult) (clock : Clock)
    (messageText : option string) (st : State) :
  (isLoading st = true ∨ textToSend messageText st = "" →
     sendMessage server clock messageText st = (st, [])) ∧
  (length (sendMessage server clock messageText st).2 ≤ 1)%nat ∧
  (∀ msg, msg ∈ (sendMessage server clock messageText st).2 →
     msg ≠ "" ∧ isLoading st = false ∧
     (msg = Js.trim (input st) ∨ messageText = Some msg)).
Proof.
  unfold sendMessage. split; [|split].
  - intros H. unfold sendMessage_begin. cbv zeta.
    destruct H as [->| ->]; [by rewrite orb_true_r|].
    by rewrite bool_decide_eq_true_2.
  - destruct (sendMessage_begin clock messageText st) as [st1 [msg|]]; simpl; lia.
  - intros msg.
    destruct (sendMessage_begin clock messageText st) as [st1 [msg'|]] eqn:Hb;
      cbn [snd]; [|by intros ?%elem_of_nil].
    intros ->%list_elem_of_singleton.
    apply begin_posts in Hb as (-> & Hne & Hload & _).
    repeat split; [done..|]. apply textToSend_cases.
Qed.

Lemma page_posts_only_what_there_is_to_send_witness :
  sendMessage (λ _, Rejected None) (clockAt 1000) None (idle "   ") = (idle "   ", []) ∧
  (sendMessage (λ _, Rejected None) (clockAt 1000) None (idle "  Is the library open? ")).2
    = ["Is the library open?"].
Proof.
  destruct (page_posts_only_what_there_is_to_send (λ _, Rejected None)
              (clockAt 1000) None (idle "   ")) as [Hnone _].
  split; [apply Hnone; right; reflexivity|reflexivity].
Defined.

Lemma ceilSeconds_bounds d :
  1000 * (ceilSeconds d - 1) < d ≤ 1000 * ceilSeconds d.
Proof.
  unfold ceilSeconds.
  pose proof (Z_div_mod_eq_full (- d) 1000).
  pose proof (Z.mod_pos_bound (- d) 1000). lia.
Qed.

(** X16. The page's own limit: when the state says the page is limited
    until [t], nothing is in flight and there is something to send, then
    before [t] nothing is posted and one error message is added that asks
    to wait the remaining time in whole seconds, rounded up, so at least 1,
    and at most 300 when [t] is at most five minutes ahead; from [t] on the
    limit is cleared before the request is posted, and the message is
    posted. *)
Theorem page_waits_until_reset_time
    (server : string → PostResult) (clock : Clock)
    (messageText : option string) (st : State) (t : Z) :
  isLoading st = false →
  textToSend messageText st ≠ "" →
  rateLimitInfo st = {| isLimited := true; resetTime := Some t |} →
  t ≠ 0 →
  (tCheck clock < t →
     sendMessage server clock messageText st =
       (addMessage (waitMessage clock t) st, []) ∧
     1 ≤ ceilSeconds (t - tCheck clock) ∧
     (t ≤ tCheck clock + 5 * 60 * 1000 → ceilSeconds (t - tCheck clock) ≤ 300)) ∧
  (t ≤ tCheck clock →
     (sendMessage server clock messageText st).2 = [textToSend messageText st] ∧
     (sendMessage_begin clock messageText st).2 = Some (textToSend messageText st) ∧
     rateLimitInfo (sendMessage_begin clock messageText st).1 =
       {| isLimited := false; resetTime := None |}).
Proof.
  intros Hload Htext Hinfo Ht.
  unfold sendMessage, sendMessage_begin. cbv zeta.
  rewrite Hload, bool_decide_eq_false_2 by done. cbn [orb].
  unfold waitingFor. rewrite Hinfo. cbn [isLimited resetTime].
  rewrite (proj2 (Z.eqb_neq t 0)) by done. cbn [negb andb].
  split; intros Hnow.
  - rewrite (proj2 (Z.ltb_lt _ _)) by done.
    pose proof (ceilSeconds_bounds (t - tCheck clock)).
    repeat split; lia.
  - rewrite (proj2 (Z.ltb_ge _ _)) by done. cbv iota beta. cbn [snd fst].
    done.
Qed.

Lemma page_waits_until_reset_time_witness :
  sendMessage (λ _, Rejected None) (clockAt 1000) None
      (limitedUntil 2500 "Is the library open?") =
    (addMessage (waitMessage (clockAt 1000) 2500)
       (limitedUntil 2500 "Is the library open?"), []) ∧
  (sendMessage (λ _, Rejected None) (clockAt 2500) None
      (limitedUntil 2500 "Is the library open?")).2 = ["Is the library open?"].
Proof.
  destruct (page_waits_until_reset_time (λ _, Rejected None) (clockAt 1000) None
              (limitedUntil 2500 "Is the library open?") 2500) as [Hwait _];
    [reflexivity|vm_compute; discriminate|reflexivity|lia|].
  destruct (page_waits_until_reset_time (λ _, Rejected None) (clockAt 2500) None
              (limitedUntil 2500 "Is the library open?") 2500) as [_ Hsend];
    [reflexivity|vm_compute; discriminate|reflexivity|lia|].
  split.
  - apply Hwait. simpl. lia.
  - apply Hsend. simpl. lia.
Defined.

(** X17. A 429 that carries [rateLimited] locks the page: when the posted
    request is rejected with status 429 and a true [rateLimited] field, the
    page records a limit of five minutes from the moment of the rejection,
    shows the server's error text as an error message, and from then on
    the text input and the send button are disabled and the sample
    questions are not rendered, whatever the time. *)
Theorem rate_limited_reply_locks_the_page
    (server : string → PostResult) (clock : Clock)
    (messageText : option string) (st st1 : State) (msg : string)
    (r : ChatTs.Response) :
  sendMessage_begin clock messageText st = (st1, Some msg) →
  server msg = Rejected (Some r) →
  ChatTs.status r = 429 →
  dataRateLimited r = Some true →
  ∃ st2, sendMessage server clock messageText st = (st2, [msg]) ∧
    rateLimitInfo st2 =
      {| isLimited := true; resetTime := Some (tReset clock + 300000) |} ∧
    isLoading st2 = false ∧
    last (messages st2) =
      Some (replyMessage clock
              (default "Too many requests. Please wait before trying again."
                 (ChatTs.nonEmpty (dataError r))) true) ∧
    inputDisabled st2 = true ∧ sendDisabled st2 = true ∧ samplesShown st2 = false.
Proof.
  intros Hb Hs H429 Hrl. unfold sendMessage. rewrite Hb, Hs.
  eexists. split; [done|].
  apply begin_posts in Hb as (_ & _ & _ & _ & Hmsgs & _).
  unfold sendMessage_settle. rewrite bool_decide_eq_true_2, Hrl by done.
  cbn [andb orFalse]. unfold inputDisabled, sendDisabled, samplesShown.
  cbn [setIsLoading setRateLimitInfo addMessage messages input isLoading
       rateLimitInfo isLimited orb andb negb].
  rewrite last_snoc, Hmsgs, !length_app. cbn [length].
  repeat split; try done.
  - apply orb_true_r.
  - rewrite bool_decide_eq_false_2 by lia. done.
Qed.

Lemma rate_limited_reply_locks_the_page_witness :
  ∃ st2,
    sendMessage (λ _, Rejected (Some GateTrace.tooManyRequests)) (clockAt 1000) None
      (idle "Is the library open?") = (st2, ["Is the library open?"]) ∧
    rateLimitInfo st2 = {| isLimited := true; resetTime := Some 301040 |} ∧
    inputDisabled st2 = true ∧ sendDisabled st2 = true ∧ samplesShown st2 = false.
Proof.
  destruct (rate_limited_reply_locks_the_page
              (λ _, Rejected (Some GateTrace.tooManyRequests)) (clockAt 1000) None
              (idle "Is the library open?")
              (sendMessage_begin (clockAt 1000) None (idle "Is the library open?")).1
              "Is the library open?" GateTrace.tooManyRequests)
    as (st2 & H1 & H2 & _ & _ & H3 & H4 & H5);
    [reflexivity..|].
  exists st2. repeat split; assumption.
Defined.

(** *** The page against the handler of [chat.ts] *)

Section AgainstChat.
Variables (now : Z) (apiKey : option string) (xff addr : option string).
Variable upstream : nat → ChatTs.AxiosCall → ChatTs.AxiosResult.
Variable m : RateLimit.RateMap.

Lemma chatResponse_blocked msg :
  gateBlocks now xff addr m msg = true →
  chatResponse now apiKey xff addr upstream m msg = GateTrace.tooManyRequests.
Proof.
  unfold gateBlocks, chatResponse, ChatTs.handler. cbn [ChatTs.method chatRequest].
  rewrite bool_decide_eq_true_2 by done. cbn [negb].
  destruct (RateLimit.isRateLimited _ _ _) as [b m']. simpl. by intros ->.
Qed.

Lemma chatResponse_admitted msg :
  gateBlocks now xff addr m msg = false → msg ≠ "" →
  chatResponse now apiKey xff addr upstream m msg =
    (ChatTs.run upstream 0
       (if negb (ChatTs.isNorthstoweRelated msg) then
          ChatTs.Ret (ChatTs.respond 200
                        (ChatTs.ResponseJson ChatTs.notRelatedText (Some true)))
        else
          match ChatTs.nonEmpty apiKey with
          | None =>
              ChatTs.Ret (ChatTs.respond 500
                            (ChatTs.ErrorJson "API key not configured" None))
          | Some key =>
              ChatTs.Await
                (ChatTs.upstreamCall key (ChatTs.enhanceQueryForNorthstowe msg))
                ChatTs.onSettled
          end)).1.
Proof.
  intros Hgate Hne. unfold chatResponse.
  rewrite HandlerProps.handler_admitted by done.
  cbn [fst ChatTs.message chatRequest ChatTs.truthy ChatTs.isString ChatTs.stringOf].
  by rewrite bool_decide_eq_false_2.
Qed.

(** What axios makes of a response of the handler. *)
Lemma delivered_handler (r : ChatTs.Response) :
  ChatTs.status r ∈ GateTrace.statusCodes →
  match ChatTs.json r with
  | ChatTs.ResponseJson _ _ => ChatTs.status r = 200
  | ChatTs.ErrorJson _ _ => ChatTs.status r ≠ 200
  end →
  delivered r =
    Some (match ChatTs.json r with
          | ChatTs.ResponseJson t nr => Resolved t nr
          | ChatTs.ErrorJson _ _ => Rejected (Some r)
          end).
Proof.
  intros Hs Hj. unfold delivered. unfold GateTrace.statusCodes in Hs.
  repeat (apply elem_of_cons in Hs as [Hs|Hs];
    [rewrite Hs in *; destruct (ChatTs.json r); cbn; (done || lia)|]).
  by apply elem_of_nil in Hs.
Qed.

Lemma ask_posted clock mt st st1 msg :
  sendMessage_begin clock mt st = (st1, Some msg) →
  ask now apiKey xff addr upstream m clock mt st =
    match delivered (chatResponse now apiKey xff addr upstream m msg) with
    | Some result => Some (sendMessage_settle clock result st1)
    | None => None
    end.
Proof. intros Hb. unfold ask. by rewrite Hb. Qed.

Lemma chatResponse_status msg :
  msg ≠ "" →
  ChatTs.status (chatResponse now apiKey xff addr upstream m msg) ∈ [200; 429; 500].
Proof.
  intros Hne. destruct (gateBlocks now xff addr m msg) eqn:Hgate.
  - rewrite chatResponse_blocked by done. cbn. FilterProps.in_list.
  - rewrite chatResponse_admitted by done.
    destruct (negb (ChatTs.isNorthstoweRelated msg)); [cbn; FilterProps.in_list|].
    destruct (ChatTs.nonEmpty apiKey) as [key|]; [|cbn; FilterProps.in_list].
    cbn [ChatTs.run].
    destruct (upstream 0 _) as [data|error]; cbn [ChatTs.onSettled].
    + destruct (ChatTs.firstContent data) as [[text|]|];
        [|cbn; FilterProps.in_list..].
      cbn [ChatTs.nonEmpty]. destruct (bool_decide (text = ""));
        cbn; FilterProps.in_list.
    + cbn [ChatTs.run fst].
      destruct (HandlerTraceProps.onError_fixed error) as [Hs _].
      apply elem_of_cons in Hs as [->|Hs]; [FilterProps.in_list|].
      apply elem_of_cons in Hs as [->|Hs]; [FilterProps.in_list|].
      by apply elem_of_nil in Hs.
Qed.

(** X18. The page never gets a 400: a message the page posts is a
    non-empty string, so the body validation of [chat.ts] never rejects it,
    and every response the handler gives to it has status 200, 429 or 500,
    never 400 with "Message is required". *)
Theorem page_never_gets_400
    (clock : Clock) (messageText : option string) (st st1 : State) (msg : string) :
  sendMessage_begin clock messageText st = (st1, Some msg) →
  ChatTs.status (chatResponse now apiKey xff addr upstream m msg) ∈ [200; 429; 500] ∧
  chatResponse now apiKey xff addr upstream m msg ≠
    ChatTs.respond 400 (ChatTs.ErrorJson "Message is required" None).
Proof.
  intros (_ & Hne & _)%begin_posts.
  pose proof (chatResponse_status msg Hne) as Hs.
  split; [done|]. intros Heq. rewrite Heq in Hs. cbn in Hs.
  repeat (apply elem_of_cons in Hs as [Hs|Hs]; [done|]).
  by apply elem_of_nil in Hs.
Qed.

(** X19. Only the gate locks the page: when the gate of [chat.ts] blocks
    the posted message, the page shows the gate's text as an error and
    records a limit of five minutes from the rejection; when the request is
    let in and it is the upstream that answers 429, the page shows "API
    rate limit exceeded. Please try again later." as an error and records
    no limit. *)
Theorem only_the_gate_locks_the_page
    (clock : Clock) (messageText : option string) (st st1 : State)
    (msg key : string) :
  sendMessage_begin clock messageText st = (st1, Some msg) →
  (gateBlocks now xff addr m msg = true →
     ask now apiKey xff addr upstream m clock messageText st =
       Some (setIsLoading false
               (addMessage
                  (replyMessage clock
                     "Too many requests. Please wait a moment before asking another question."
                     true)
                  (setRateLimitInfo
                     {| isLimited := true;
                        resetTime := Some (tReset clock + 300000) |} st1)))) ∧
  (gateBlocks now xff addr m msg = false →
   ChatTs.isNorthstoweRelated msg = true →
   ChatTs.nonEmpty apiKey = Some key →
   upstream 0 (ChatTs.upstreamCall key (ChatTs.enhanceQueryForNorthstowe msg)) =
     ChatTs.Rejected {| ChatTs.isAxiosError := true;
                        ChatTs.responseStatus := Some 429 |} →
     ask now apiKey xff addr upstream m clock messageText st =
       Some (setIsLoading false
               (addMessage
                  (replyMessage clock
                     "API rate limit exceeded. Please try again later." true)
                  st1))).
Proof.
  intros Hb. rewrite (ask_posted _ _ _ _ _ Hb).
  pose proof (begin_posts _ _ _ _ _ Hb) as (_ & Hne & _).
  split.
  - intros Hgate. by rewrite chatResponse_blocked.
  - intros Hgate Hrel Hkey Hup.
    rewrite chatResponse_admitted by done.
    rewrite Hrel, Hkey. cbn [negb ChatTs.run]. by rewrite Hup.
Qed.

(** X20. What the page shows for an answer: when the request is let in and
    the message is out of scope, the refusal is added as an error message;
    when it is in scope and the upstream's first choice has a non-empty
    content, that content is added, unchanged, as an ordinary message.  In
    both cases nothing is in flight afterwards and no limit is recorded. *)
Theorem page_shows_the_answer
    (clock : Clock) (messageText : option string) (st st1 : State)
    (msg key text : string) (cs : list ChatTs.Choice) :
  sendMessage_begin clock messageText st = (st1, Some msg) →
  gateBlocks now xff addr m msg = false →
  (ChatTs.isNorthstoweRelated msg = false →
     ask now apiKey xff addr upstream m clock messageText st =
       Some (setIsLoading false
               (addMessage (replyMessage clock ChatTs.notRelatedText true) st1))) ∧
  (ChatTs.isNorthstoweRelated msg = true →
   ChatTs.nonEmpty apiKey = Some key →
   text ≠ "" →
   upstream 0 (ChatTs.upstreamCall key (ChatTs.enhanceQueryForNorthstowe msg)) =
     ChatTs.Fulfilled {| ChatTs.choices := Some
       ({| ChatTs.choiceMessage :=
             Some {| ChatTs.messageContent := Some text |} |} :: cs) |} →
     ask now apiKey xff addr upstream m clock messageText st =
       Some (setIsLoading false
               (addMessage (replyMessage clock text false) st1))).
Proof.
  intros Hb Hgate. rewrite (ask_posted _ _ _ _ _ Hb).
  pose proof (begin_posts _ _ _ _ _ Hb) as (_ & Hne & _).
  rewrite chatResponse_admitted by done.
  split.
  - by intros ->.
  - intros -> -> Htext Hup. cbn [negb ChatTs.run]. rewrite Hup.
    cbn [ChatTs.onSettled ChatTs.firstContent ChatTs.choices ChatTs.choiceMessage
         ChatTs.messageContent ChatTs.nonEmpty].
    by rewrite bool_decide_eq_false_2.
Qed.

(** X21. The server's other error texts are not shown: whenever the
    handler of [chat.ts] answers a message of the page with a status other
    than 200 and 429 (no API key, an upstream failure, an empty answer),
    the page adds "Sorry, something went wrong. Please try again." as an
    error message, whatever error text the response carries, and records no
    limit. *)
Theorem server_error_texts_are_not_shown
    (clock : Clock) (messageText : option string) (st st1 : State) (msg : string) :
  sendMessage_begin clock messageText st = (st1, Some msg) →
  ChatTs.status (chatResponse now apiKey xff addr upstream m msg) ≠ 200 →
  ChatTs.status (chatResponse now apiKey xff addr upstream m msg) ≠ 429 →
  ask now apiKey xff addr upstream m clock messageText st =
    Some (setIsLoading false
            (addMessage
               (replyMessage clock "Sorry, something went wrong. Please try again."
                  true) st1)).
Proof.
  intros Hb H200 H429. rewrite (ask_posted _ _ _ _ _ Hb).
  destruct (HandlerTraceProps.handler_stock now apiKey
    (chatRequest xff addr msg) m upstream 0) as [Hs Hj].
  fold (chatResponse now apiKey xff addr upstream m msg) in Hs, Hj.
  rewrite delivered_handler; [|done|by destruct (ChatTs.json _); [destruct Hj|]].
  destruct (ChatTs.json _); [|done].
  unfold sendMessage_settle. by rewrite bool_decide_eq_false_2.
Qed.

End AgainstChat.

Lemma page_never_gets_400_witness :
  ChatTs.status
    (chatResponse 2000 None None None (Wording.rejecting 500) ∅ "Is the library open?")
    ∈ [200; 429; 500] ∧
  chatResponse 2000 None None None (Wording.rejecting 500) ∅ "Is the library open?" ≠
    ChatTs.respond 400 (ChatTs.ErrorJson "Message is required" None).
Proof.
  apply (page_never_gets_400 2000 None None None (Wording.rejecting 500) ∅
           (clockAt 2000) None (idle " Is the library open? ")
           (sendMessage_begin (clockAt 2000) None (idle " Is the library open? ")).1).
  reflexivity.
Defined.

Lemma only_the_gate_locks_the_page_witness :
  ask 2000 (Some "pplx-key") None None (Wording.rejecting 429) (usedUp 301000)
      (clockAt 2000) None (idle "Is the library open?") =
    Some (setIsLoading false
            (addMessage
               (replyMessage (clockAt 2000)
                  "Too many requests. Please wait a moment before asking another question."
                  true)
               (setRateLimitInfo
                  {| isLimited := true; resetTime := Some 302040 |}
                  (sendMessage_begin (clockAt 2000) None
                     (idle "Is the library open?")).1))) ∧
  ask 2000 (Some "pplx-key") None None (Wording.rejecting 429) ∅
      (clockAt 2000) None (idle "Is the library open?") =
    Some (setIsLoading false
            (addMessage
               (replyMessage (clockAt 2000)
                  "API rate limit exceeded. Please try again later." true)
               (sendMessage_begin (clockAt 2000) None
                  (idle "Is the library open?")).1)).
Proof.
  split.
  - apply (only_the_gate_locks_the_page 2000 (Some "pplx-key") None None
             (Wording.rejecting 429) (usedUp 301000) (clockAt 2000) None
             (idle "Is the library open?") _ "Is the library open?" "pplx-key");
      [reflexivity|vm_compute; reflexivity].
  - apply (only_the_gate_locks_the_page 2000 (Some "pplx-key") None None
             (Wording.rejecting 429) ∅ (clockAt 2000) None
             (idle "Is the library open?") _ "Is the library open?" "pplx-key");
      [reflexivity|vm_compute; reflexivity..].
Defined.

Lemma page_shows_the_answer_witness :
  ask 2000 (Some "pplx-key") None None (answering "Yes, until five.") ∅
      (clockAt 2000) None (idle Wording.recipeQuery) =
    Some (setIsLoading false
            (addMessage (replyMessage (clockAt 2000) ChatTs.notRelatedText true)
               (sendMessage_begin (clockAt 2000) None (idle Wording.recipeQuery)).1)) ∧
  ask 2000 (Some "pplx-key") None None (answering "Yes, until five.") ∅
      (clockAt 2000) None (idle "Is the library open?") =
    Some (setIsLoading false
            (addMessage (replyMessage (clockAt 2000) "Yes, until five." false)
               (sendMessage_begin (clockAt 2000) None
                  (idle "Is the library open?")).1)).
Proof.
  split.
  - apply (page_shows_the_answer 2000 (Some "pplx-key") None None
             (answering "Yes, until five.") ∅ (clockAt 2000) None
             (idle Wording.recipeQuery) _ Wording.recipeQuery "pplx-key"
             "Yes, until five." []);
      [reflexivity|vm_compute; reflexivity..].
  - apply (page_shows_the_answer 2000 (Some "pplx-key") None None
             (answering "Yes, until five.") ∅ (clockAt 2000) None
             (idle "Is the library open?") _ "Is the library open?" "pplx-key"
             "Yes, until five." []);
      [reflexivity|vm_compute; reflexivity|vm_compute; reflexivity
      |reflexivity|discriminate|reflexivity].
Defined.

Lemma server_error_texts_are_not_shown_witness :
  ask 2000 None None None (Wording.rejecting 500) ∅
      (clockAt 2000) None (idle "Is the library open?") =
    Some (setIsLoading false
            (addMessage
               (replyMessage (clockAt 2000)
                  "Sorry, something went wrong. Please try again." true)
               (sendMessage_begin (clockAt 2000) None
                  (idle "Is the library open?")).1)).
Proof.
  apply (server_error_texts_are_not_shown 2000 None None None
           (Wording.rejecting 500) ∅ (clockAt 2000) None
           (idle "Is the library open?") _ "Is the library open?");
    [reflexivity|vm_compute; discriminate..].
Defined.

End PageProps.
